(** * CNT Explorer 2.0: the computational surface of [app.py]

    [app.py] is one Streamlit script, run top to bottom on every change of
    an input widget.  This development embeds the formulas of the script
    and proves the properties its specification states about them.

    Conventions of the embedding:
    - a Python [int] is a [Z]; [%] is Python's floored remainder, which for
      the positive modulus 3 used here is [Z.modulo];
    - a Python [float] is a real number of [R]: arithmetic is exact; the
      rounding, the overflow, the infinities and the NaN of IEEE doubles
      are outside the model; module [F64] embeds the lines of the diameter
      and of the resistance a second time, on binary64 floats, to show
      where an equation of the reals does not survive the rounding;
    - code that can raise returns a [result]; Python's [/] raises
      [ZeroDivisionError] on a zero divisor and [math.sqrt] raises
      [ValueError] on a negative argument, and both are embedded that way;
    - a one-dimensional numpy array is a [list R], the two-dimensional
      [grid] is a [list (list R)] updated in place by index. *)

From Stdlib Require Import ZArith List Bool String Reals Machin Lra Lia Psatz.
From Stdlib Require Uint63 PrimFloat.
Import ListNotations.

Local Open Scope Z_scope.
Local Open Scope R_scope.

(** ** Python and numpy primitives used by the script *)

Module Py.

Inductive exn : Type :=
| ZeroDivisionError
| ValueError
| IndexError.

Inductive result (A : Type) : Type :=
| Ok (x : A)
| Raise (e : exn).

Arguments Ok {A} x.
Arguments Raise {A} e.

Definition bind {A B : Type} (c : result A) (f : A -> result B) : result B :=
  match c with
  | Ok x => f x
  | Raise e => Raise e
  end.

Definition raises {A : Type} (c : result A) : Prop :=
  exists e, c = Raise e.

(** [x / y] on floats. *)
Definition div (x y : R) : result R :=
  if Req_dec_T y 0 then Raise ZeroDivisionError else Ok (x / y).

(** [math.sqrt(x)]. *)
Definition math_sqrt (x : R) : result R :=
  if Rlt_dec x 0 then Raise ValueError else Ok (sqrt x).

(** [max(x, y)] on two arguments: the first one unless the second is
    strictly greater. *)
Definition max (x y : R) : R :=
  if Rlt_dec x y then y else x.

(** [range(n)]. *)
Definition range (n : Z) : list Z :=
  map Z.of_nat (seq 0 (Z.to_nat n)).

(** [for x in xs: body], the loop state threaded through the body. *)
Fixpoint for_each {S : Type} (xs : list Z) (body : Z -> S -> result S) (s : S)
  : result S :=
  match xs with
  | [] => Ok s
  | x :: xs' => bind (body x s) (for_each xs' body)
  end.

(** [np.linspace(start, stop, num)] with the default [endpoint=True], for
    [num > 1]: [start + i * step] with [step = (stop - start) / (num - 1)].
    numpy overwrites the last sample with [stop]; over the reals the last
    sample is [stop] already (lemma [linspace_last]). *)
Definition linspace (start stop : R) (num : Z) : list R :=
  let step := (stop - start) / IZR (num - 1) in
  map (fun i => start + IZR i * step) (range num).

(** [np.zeros((rows, cols))]. *)
Definition zeros (rows cols : Z) : list (list R) :=
  repeat (repeat 0 (Z.to_nat cols)) (Z.to_nat rows).

(** An index into an axis of length [len]: a negative index counts from
    the end, anything outside [-len, len) raises. *)
Definition index (len : nat) (i : Z) : result nat :=
  let i' := if (i <? 0)%Z then (i + Z.of_nat len)%Z else i in
  if ((0 <=? i') && (i' <? Z.of_nat len))%Z%bool
  then Ok (Z.to_nat i') else Raise IndexError.

Fixpoint update {A : Type} (l : list A) (i : nat) (f : A -> A) : list A :=
  match l, i with
  | [], _ => []
  | x :: l', O => f x :: l'
  | x :: l', S i' => x :: update l' i' f
  end.

(** [g[i, j] = v] on a two-dimensional array. *)
Definition setitem2 (g : list (list R)) (i j : Z) (v : R)
  : result (list (list R)) :=
  bind (index (List.length g) i) (fun i' =>
  bind (index (List.length (nth i' g [])) j) (fun j' =>
  Ok (update g i' (fun row => update row j' (fun _ => v))))).

(** [g[i, j]] read back, for indices in range. *)
Definition getitem2 (g : list (list R)) (i j : Z) : result R :=
  bind (index (List.length g) i) (fun i' =>
  bind (index (List.length (nth i' g [])) j) (fun j' =>
  Ok (nth j' (nth i' g []) 0))).

End Py.

Notation "x <- c ;; k" := (Py.bind c (fun x => k))
  (at level 61, c at next level, right associativity).

Import Py.

(** ** The script *)

Module App.

(** The two sidebar inputs: [st.sidebar.number_input(label, min_value,
    max_value, value)] returns an [int] within [min_value, max_value]. *)
Record number_input : Type := {
  min_value : Z;
  max_value : Z;
  value : Z
}.

Definition n_input : number_input :=
  {| min_value := 1; max_value := 200; value := 12 |}.
Definition m_input : number_input :=
  {| min_value := 0; max_value := 200; value := 6 |}.

Definition accepts (w : number_input) (v : Z) : bool :=
  ((min_value w <=? v) && (v <=? max_value w))%Z.

(** [a = 0.246] *)
Definition a : R := 0.246.

(** [diameter = (a / math.pi) * math.sqrt(n**2 + n*m + m**2)] *)
Definition diameter (n m : Z) : result R :=
  q <- div a PI ;;
  r <- math_sqrt (IZR (n ^ 2 + n * m + m ^ 2)) ;;
  Ok (q * r).

(** [metallic = ((n - m) % 3 == 0)] *)
Definition metallic (n m : Z) : bool :=
  ((n - m) mod 3 =? 0)%Z.

(** [bandgap = 0 if metallic else 0.7 / diameter] *)
Definition bandgap (metallic : bool) (diameter : R) : result R :=
  if metallic then Ok 0 else div 0.7 diameter.

(** The three values the summary shows for the selected tube. *)
Record tube_geometry : Type := {
  tube_diameter : R;
  tube_metallic : bool;
  tube_bandgap : R
}.

(** Lines 21 to 23 of the script, in order. *)
Definition geometry (n m : Z) : result tube_geometry :=
  diameter_ <- diameter n m ;;
  let metallic_ := metallic n m in
  bandgap_ <- bandgap metallic_ diameter_ ;;
  Ok {| tube_diameter := diameter_;
        tube_metallic := metallic_;
        tube_bandgap := bandgap_ |}.

(** *** Band structure *)

(** [k = np.linspace(-3, 3, 400)] *)
Definition k : list R := linspace (-3) 3 400.

(** One sample of the two dispersions: [0.2 * k] and
    [np.sqrt((bandgap/2)**2 + (0.25 * k**2))], the latter with
    [half = bandgap/2]. *)
Definition E_metallic (x : R) : R := 0.2 * x.
Definition E_semiconducting (half x : R) : R := sqrt (half ^ 2 + 0.25 * x ^ 2).

(** [if metallic: E = 0.2 * k  else: E = np.sqrt(...)] *)
Definition E (metallic : bool) (bandgap : R) : result (list R) :=
  if metallic then Ok (map E_metallic k)
  else
    half <- div bandgap 2 ;;
    Ok (map (E_semiconducting half) k).

(** [ax1.plot(k, E); ax1.plot(k, -E)]: the two lines drawn, each as its
    abscissas and ordinates. *)
Definition band_plot (E : list R) : list (list R * list R) :=
  [(k, E); (k, map Ropp E)].

(** *** CNT-FET current *)

(** [beta = 10e-6] *)
Definition beta : R := 10e-6.

(** [Vt = bandgap / 2] *)
Definition Vt (bandgap : R) : result R := div bandgap 2.

(** [Id = max(0, beta * (Vg - Vt) * Vd)] *)
Definition Id (Vg Vd Vt : R) : R :=
  max 0 (beta * (Vg - Vt) * Vd).

(** *** Chirality heat map *)

(** [d = (a / math.pi) * math.sqrt(i**2 + i*j + j**2) if (i + j) > 0
        else 0.0001] *)
Definition d (i j : Z) : result R :=
  if (i + j >? 0)%Z then
    q <- div a PI ;;
    r <- math_sqrt (IZR (i ^ 2 + i * j + j ^ 2)) ;;
    Ok (q * r)
  else Ok 0.0001.

(** The body of the inner loop. *)
Definition grid_cell (i j : Z) (grid : list (list R))
  : result (list (list R)) :=
  d_ <- d i j ;;
  if ((i - j) mod 3 =? 0)%Z then setitem2 grid i j 0
  else
    v <- div 0.7 d_ ;;
    setitem2 grid i j v.

(** [grid = np.zeros((size, size))] filled by the two nested loops. *)
Definition grid (size : Z) : result (list (list R)) :=
  for_each (range size) (fun i g =>
    for_each (range size) (fun j g' => grid_cell i j g') g)
    (zeros size size).

(** *** Interconnect resistance *)

(** [rho = 1e-6] *)
Definition rho : R := 1e-6.

(** [length_cm = length_um * 1e-4] *)
Definition length_cm (length_um : R) : R := length_um * 1e-4.

(** [R = rho * (length_cm / (diameter * 1e-7))]; the script's [R] is
    named [resistance] here, [R] being the type of the reals. *)
Definition resistance (length_um diameter : R) : result R :=
  q <- div (length_cm length_um) (diameter * 1e-7) ;;
  Ok (rho * q).

(** *** CNT-FET against a silicon MOSFET *)

(** [V = np.linspace(0, 2, 50)] *)
Definition V : list R := linspace 0 2 50.

(** [Id_cnt = beta * (V - Vt); Id_cnt[Id_cnt < 0] = 0] *)
Definition Id_cnt (vt : R) : list R :=
  map (fun x => if Rlt_dec x 0 then 0 else x)
      (map (fun v => beta * (v - vt)) V).

Definition mu : R := 200e-4.
Definition Cox : R := 1e-3.
Definition WoverL : R := 10.

(** [Id_si = mu * Cox * WoverL * (V**2)] *)
Definition Id_si : list R :=
  map (fun v => mu * Cox * WoverL * v ^ 2) V.

(** *** Synthesis rule *)

(** The three [st.info] branches. *)
Inductive recommendation : Type :=
| LaserAblationArcDischarge
| CvdPecvd
| FiberMwcnt.

(** [if diameter < 1: ... elif diameter < 2: ... else: ...] *)
Definition synthesis (diameter : R) : recommendation :=
  if Rlt_dec diameter 1 then LaserAblationArcDischarge
  else if Rlt_dec diameter 2 then CvdPecvd
  else FiberMwcnt.

(** The text each branch shows. *)
Definition info (r : recommendation) : string :=
  match r with
  | LaserAblationArcDischarge =>
      "🔬 Prefer **Laser Ablation / Arc Discharge** — smaller diameter SWCNTs."
  | CvdPecvd =>
      "⚗️ Prefer **CVD / PECVD** for alignment + chirality tuning."
  | FiberMwcnt =>
      "🧵 Prefer **Fiber / MWCNT growth techniques** for mechanical stability."
  end.

(** *** One run of the script *)

(** The values of the widgets in one run. *)
Record inputs : Type := {
  in_n : Z;
  in_m : Z;
  in_Vg : R;
  in_Vd : R;
  in_size : Z;
  in_length_um : R
}.

(** The ranges the widgets enforce. *)
Definition in_range (x : inputs) : Prop :=
  accepts n_input (in_n x) = true /\
  accepts m_input (in_m x) = true /\
  0 <= in_Vg x <= 2 /\
  0 <= in_Vd x <= 2 /\
  (10 <= in_size x <= 40)%Z /\
  0.1 <= in_length_um x <= 20.

(** What one run computes and hands to the page. *)
Record outputs : Type := {
  out_diameter : R;
  out_metallic : bool;
  out_bandgap : R;
  out_band_plot : list (list R * list R);
  out_Id : R;
  out_grid : list (list R);
  out_R : R;
  out_Id_cnt : list R;
  out_Id_si : list R;
  out_synthesis : recommendation
}.

Definition run (x : inputs) : result outputs :=
  t <- geometry (in_n x) (in_m x) ;;
  let diameter_ := tube_diameter t in
  let metallic_ := tube_metallic t in
  let bandgap_ := tube_bandgap t in
  E_ <- E metallic_ bandgap_ ;;
  Vt_ <- Vt bandgap_ ;;
  let Id_ := Id (in_Vg x) (in_Vd x) Vt_ in
  grid_ <- grid (in_size x) ;;
  R_ <- resistance (in_length_um x) diameter_ ;;
  Ok {| out_diameter := diameter_;
        out_metallic := metallic_;
        out_bandgap := bandgap_;
        out_band_plot := band_plot E_;
        out_Id := Id_;
        out_grid := grid_;
        out_R := R_;
        out_Id_cnt := Id_cnt Vt_;
        out_Id_si := Id_si;
        out_synthesis := synthesis diameter_ |}.

End App.

(** ** The diameter and the resistance on binary64 floats

    The same lines as [App.diameter] and [App.resistance], with Python's
    [float] as the IEEE double it is: every operation rounds to nearest. *)

Module F64.

Import PrimFloat.
Local Open Scope float_scope.
#[local] Set Warnings "-inexact-float".

(** [x / y] on floats. *)
Definition div (x y : float) : result float :=
  if y =? 0 then Raise ZeroDivisionError else Ok (x / y).

(** [math.sqrt(x)]. *)
Definition math_sqrt (x : float) : result float :=
  if x <? 0 then Raise ValueError else Ok (sqrt x).

(** The conversion of an [int] to a [float], exact below 2^53 and
    meant for that range only. *)
Definition float_of_int (z : Z) : float :=
  of_uint63 (Uint63.of_Z z).

(** [math.pi] *)
Definition pi : float := 0x1.921fb54442d18p+1.

(** [a = 0.246] *)
Definition a : float := 0.246.

(** [diameter = (a / math.pi) * math.sqrt(n**2 + n*m + m**2)] *)
Definition diameter (n m : Z) : result float :=
  q <- div a pi ;;
  r <- math_sqrt (float_of_int (n ^ 2 + n * m + m ^ 2)) ;;
  Ok (q * r).

(** [rho = 1e-6] *)
Definition rho : float := 1e-6.

(** [length_cm = length_um * 1e-4] *)
Definition length_cm (length_um : float) : float := length_um * 1e-4.

(** [R = rho * (length_cm / (diameter * 1e-7))] *)
Definition resistance (length_um diameter : float) : result float :=
  q <- div (length_cm length_um) (diameter * 1e-7) ;;
  Ok (rho * q).

(** The closed form [1e-6 * (L * 1e-4) / (diameter * 1e-7)], which
    Python reads as a quotient of two products. *)
Definition closed_form (L diameter : float) : float :=
  1e-6 * (L * 1e-4) / (diameter * 1e-7).

End F64.

Import App.

(** ** Notions used to state the loop invariants of the heat map *)

(** A [rows] by [cols] array. *)
Definition shape (rows cols : nat) (g : list (list R)) : Prop :=
  List.length g = rows /\
  forall i, (i < rows)%nat -> List.length (nth i g []) = cols.

(** The array [g] after [g[i, j] = v], and the entry [g[i, j]], for
    indices known to be in range. *)
Definition set2 (g : list (list R)) (i j : nat) (v : R) : list (list R) :=
  update g i (fun row => update row j (fun _ => v)).

Definition get2 (g : list (list R)) (i j : nat) : R :=
  nth j (nth i g []) 0.

(** What the loop body stores in cell (i, j). *)
Definition cell_value (i j : Z) : R :=
  if ((i - j) mod 3 =? 0)%Z then 0
  else 0.7 / (a / PI * sqrt (IZR (i ^ 2 + i * j + j ^ 2))).

(** ** Facts about the primitives *)

Section Primitives.

Context {A B : Type}.

Lemma bind_Ok (c : result A) (f : A -> result B) (x : A) :
  c = Ok x -> bind c f = f x.
Proof. intros ->. reflexivity. Qed.

Lemma bind_Ok_inv (c : result A) (f : A -> result B) (y : B) :
  bind c f = Ok y -> exists x, c = Ok x /\ f x = Ok y.
Proof.
  destruct c as [x|e]; simpl; intros H.
  - exists x. split; [reflexivity | exact H].
  - discriminate H.
Qed.

Lemma Ok_not_raises (x : A) : ~ raises (Ok x).
Proof. intros [e H]. discriminate H. Qed.

End Primitives.

Lemma div_Ok (x y : R) : y <> 0 -> div x y = Ok (x / y).
Proof.
  intros Hy. unfold div.
  destruct (Req_dec_T y 0) as [H0|_]; [contradiction | reflexivity].
Qed.

Lemma div_zero (x : R) : div x 0 = Raise ZeroDivisionError.
Proof.
  unfold div. destruct (Req_dec_T 0 0) as [_|H]; [reflexivity | now elim H].
Qed.

Lemma math_sqrt_Ok (x : R) : 0 <= x -> math_sqrt x = Ok (sqrt x).
Proof.
  intros Hx. unfold math_sqrt.
  destruct (Rlt_dec x 0) as [H|_]; [lra | reflexivity].
Qed.

Lemma max_0_nonneg (x : R) : 0 <= max 0 x.
Proof. unfold max. destruct (Rlt_dec 0 x); lra. Qed.

Lemma max_0_pos (x : R) : 0 < x -> max 0 x = x.
Proof. intros H. unfold max. destruct (Rlt_dec 0 x); [reflexivity | lra]. Qed.

Lemma max_0_nonpos (x : R) : x <= 0 -> max 0 x = 0.
Proof. intros H. unfold max. destruct (Rlt_dec 0 x); [lra | reflexivity]. Qed.

(** ** The selected tube *)

(** Python's [%] takes the sign of the modulus: [(0 - 1) % 3 == 2]. *)
Example metallic_12_6 : metallic 12 6 = true.
Proof. reflexivity. Qed.

Example metallic_10_0 : metallic 10 0 = false.
Proof. reflexivity. Qed.

Example metallic_1_4 : metallic 1 4 = true.
Proof. reflexivity. Qed.

Example metallic_0_1 : metallic 0 1 = false.
Proof. reflexivity. Qed.

(** [n**2 + n*m + m**2] is a positive definite form. *)
Lemma form_nonneg (n m : Z) : (0 <= n ^ 2 + n * m + m ^ 2)%Z.
Proof. nia. Qed.

Lemma form_pos (n m : Z) : (n <> 0 \/ m <> 0)%Z -> (0 < n ^ 2 + n * m + m ^ 2)%Z.
Proof. nia. Qed.

Lemma a_over_pi_pos : 0 < a / PI.
Proof.
  apply Rdiv_lt_0_compat; [unfold a; lra | exact PI_RGT_0].
Qed.

Lemma a_over_pi_Ok : div a PI = Ok (a / PI).
Proof. apply div_Ok. exact PI_neq0. Qed.

(** Neither the division by pi nor the square root raises: pi is not 0
    and the form under the root is never negative. *)
Lemma diameter_Ok (n m : Z) :
  diameter n m = Ok (a / PI * sqrt (IZR (n ^ 2 + n * m + m ^ 2))).
Proof.
  unfold diameter. rewrite a_over_pi_Ok. simpl.
  rewrite math_sqrt_Ok; [reflexivity |].
  apply IZR_le. apply form_nonneg.
Qed.

(** The (10, 0) tube: the root is exact, the diameter is 2.46 / pi. *)
Example diameter_10_0 : diameter 10 0 = Ok (a / PI * 10).
Proof.
  rewrite diameter_Ok. change (10 ^ 2 + 10 * 0 + 0 ^ 2)%Z with (10 * 10)%Z.
  rewrite mult_IZR, sqrt_square by lra. reflexivity.
Qed.

Lemma diameter_value_pos (n m : Z) :
  (n <> 0 \/ m <> 0)%Z -> 0 < a / PI * sqrt (IZR (n ^ 2 + n * m + m ^ 2)).
Proof.
  intros H. apply Rmult_lt_0_compat; [exact a_over_pi_pos |].
  apply sqrt_lt_R0. apply IZR_lt. apply form_pos. exact H.
Qed.

Lemma metallic_spec (n m : Z) :
  metallic n m = true <-> ((n - m) mod 3 = 0)%Z.
Proof. unfold metallic. apply Z.eqb_eq. Qed.

Lemma geometry_metallic (n m : Z) :
  metallic n m = true ->
  geometry n m =
  Ok {| tube_diameter := a / PI * sqrt (IZR (n ^ 2 + n * m + m ^ 2));
        tube_metallic := true;
        tube_bandgap := 0 |}.
Proof.
  intros Hm. unfold geometry. rewrite diameter_Ok. simpl.
  rewrite Hm. reflexivity.
Qed.

Lemma geometry_semiconducting (n m : Z) :
  metallic n m = false -> (n <> 0 \/ m <> 0)%Z ->
  geometry n m =
  Ok {| tube_diameter := a / PI * sqrt (IZR (n ^ 2 + n * m + m ^ 2));
        tube_metallic := false;
        tube_bandgap := 0.7 / (a / PI * sqrt (IZR (n ^ 2 + n * m + m ^ 2))) |}.
Proof.
  intros Hm Hnz. unfold geometry. rewrite diameter_Ok. simpl.
  rewrite Hm. simpl. rewrite div_Ok; [reflexivity |].
  apply Rgt_not_eq. apply diameter_value_pos. exact Hnz.
Qed.

(** In the range of the widgets the geometry is computed, with a
    positive diameter. *)
Lemma geometry_in_range (n m : Z) :
  (1 <= n)%Z -> (0 <= m)%Z ->
  exists t, geometry n m = Ok t /\ 0 < tube_diameter t.
Proof.
  intros Hn Hm.
  assert (Hnz : (n <> 0 \/ m <> 0)%Z) by lia.
  pose proof (diameter_value_pos n m Hnz) as Hpos.
  destruct (metallic n m) eqn:E.
  - eexists. split; [apply geometry_metallic; exact E | exact Hpos].
  - eexists. split; [apply geometry_semiconducting; assumption | exact Hpos].
Qed.

(** A tube that is not metallic, with its positive bandgap. *)
Lemma semiconducting_geometry (n m : Z) :
  (1 <= n)%Z -> (0 <= m)%Z -> metallic n m = false ->
  exists t, geometry n m = Ok t /\
            tube_metallic t = false /\
            0 < tube_bandgap t.
Proof.
  intros Hn Hm Hsemi.
  assert (Hnz : (n <> 0 \/ m <> 0)%Z) by lia.
  eexists. split; [apply geometry_semiconducting; assumption |]. simpl.
  split; [reflexivity |].
  apply Rdiv_lt_0_compat; [lra | apply diameter_value_pos; exact Hnz].
Qed.

(** C1: for n >= 1 and m >= 0 the tube is metallic exactly when
    (n - m) mod 3 = 0, the geometry is computed without an exception, and
    a metallic tube has bandgap 0. *)
Theorem metallic_iff_and_zero_gap (n m : Z) :
  (1 <= n)%Z -> (0 <= m)%Z ->
  (metallic n m = true <-> ((n - m) mod 3 = 0)%Z) /\
  exists t, geometry n m = Ok t /\
            tube_metallic t = metallic n m /\
            (tube_metallic t = true -> tube_bandgap t = 0).
Proof.
  intros Hn Hm. split; [apply metallic_spec |].
  destruct (metallic n m) eqn:E.
  - eexists. split; [apply geometry_metallic; exact E |].
    simpl. split; reflexivity.
  - eexists. split; [apply geometry_semiconducting; [exact E | lia] |].
    simpl. split; [reflexivity | discriminate].
Qed.

Lemma metallic_iff_and_zero_gap_witness :
  (metallic 12 6 = true <-> ((12 - 6) mod 3 = 0)%Z) /\
  exists t, geometry 12 6 = Ok t /\
            tube_metallic t = metallic 12 6 /\
            (tube_metallic t = true -> tube_bandgap t = 0).
Proof. apply (metallic_iff_and_zero_gap 12 6); lia. Defined.

(** C5: for n >= 1 and m >= 0 the diameter is
    (0.246 / pi) * sqrt(n^2 + n*m + m^2) and positive, and every pair with
    (n - m) mod 3 <> 0 is reported as not metallic, with the positive
    bandgap 0.7 / diameter. *)
Theorem diameter_and_gap_formula (n m : Z) :
  (1 <= n)%Z -> (0 <= m)%Z ->
  exists t, geometry n m = Ok t /\
            diameter n m = Ok (tube_diameter t) /\
            tube_diameter t = 0.246 / PI * sqrt (IZR (n ^ 2 + n * m + m ^ 2)) /\
            0 < tube_diameter t /\
            (((n - m) mod 3 <> 0)%Z ->
             tube_metallic t = false /\
             tube_bandgap t = 0.7 / tube_diameter t /\
             0 < tube_bandgap t).
Proof.
  intros Hn Hm.
  assert (Hnz : (n <> 0 \/ m <> 0)%Z) by lia.
  pose proof (diameter_value_pos n m Hnz) as Hpos.
  destruct (metallic n m) eqn:E.
  - eexists. split; [apply geometry_metallic; exact E |]. simpl.
    split; [apply diameter_Ok |].
    split; [reflexivity |].
    split; [exact Hpos |].
    intros Hmod. exfalso. apply Hmod. apply metallic_spec. exact E.
  - eexists. split; [apply geometry_semiconducting; assumption |]. simpl.
    split; [apply diameter_Ok |].
    split; [reflexivity |].
    split; [exact Hpos |].
    intros _. split; [reflexivity |]. split; [reflexivity |].
    apply Rdiv_lt_0_compat; [lra | exact Hpos].
Qed.

Lemma diameter_and_gap_formula_witness :
  exists t, geometry 10 0 = Ok t /\
            tube_diameter t = 0.246 / PI * sqrt (IZR (10 ^ 2 + 10 * 0 + 0 ^ 2)) /\
            0 < tube_diameter t /\
            tube_metallic t = false /\
            tube_bandgap t = 0.7 / tube_diameter t /\
            0 < tube_bandgap t.
Proof.
  destruct (diameter_and_gap_formula 10 0) as [t [Ht [_ [Hd [Hpos Hgap]]]]];
    [lia | lia |].
  destruct Hgap as [Hmet [Hbg Hbgpos]]; [discriminate |].
  exists t. repeat split; assumption.
Defined.

(** *** The degenerate pair (0, 0) *)

Lemma geometry_0_0 :
  geometry 0 0 =
  Ok {| tube_diameter := 0; tube_metallic := true; tube_bandgap := 0 |}.
Proof.
  rewrite geometry_metallic by reflexivity.
  change (IZR (0 ^ 2 + 0 * 0 + 0 ^ 2)) with 0.
  rewrite sqrt_0, Rmult_0_r. reflexivity.
Qed.

(** ** CNT-FET current *)

Lemma Vt_Ok (bandgap : R) : Vt bandgap = Ok (bandgap / 2).
Proof. unfold Vt. apply div_Ok. lra. Qed.

(** Python's two-argument [max] against 0 is the maximum of the reals. *)
Lemma max_0_Rmax (x : R) : max 0 x = Rmax 0 x.
Proof.
  unfold max, Rmax.
  destruct (Rlt_dec 0 x), (Rle_dec 0 x); lra.
Qed.

(** C4: for Vg and Vd in [0, 2] and any bandgap the current is
    max(0, beta * (Vg - bandgap/2) * Vd) with beta = 10e-6, it is not
    negative, and it is 0 when Vg is below the threshold bandgap/2. *)
Theorem Id_clamped_at_zero (Vg Vd bandgap : R) :
  0 <= Vg <= 2 -> 0 <= Vd <= 2 ->
  exists vt, Vt bandgap = Ok vt /\
             Id Vg Vd vt = Rmax 0 (10e-6 * (Vg - bandgap / 2) * Vd) /\
             0 <= Id Vg Vd vt /\
             (Vg < bandgap / 2 -> Id Vg Vd vt = 0).
Proof.
  intros HVg HVd. eexists. split; [apply Vt_Ok |].
  split; [apply max_0_Rmax |].
  split; [apply max_0_nonneg |].
  intros Hlt. apply max_0_nonpos. unfold beta. nra.
Qed.

Lemma Id_clamped_at_zero_witness :
  exists vt, Vt (7 / 10) = Ok vt /\
             Id 1 1 vt = Rmax 0 (10e-6 * (1 - 7 / 10 / 2) * 1) /\
             0 <= Id 1 1 vt /\
             (1 < 7 / 10 / 2 -> Id 1 1 vt = 0).
Proof. apply (Id_clamped_at_zero 1 1 (7 / 10)); lra. Defined.

(** ** Synthesis rule *)

(** C6: the recommendation is a step function of the diameter with the
    breakpoints 1 and 2, each breakpoint belonging to the branch above it. *)
Theorem synthesis_step_function (diameter : R) :
  (diameter < 1 -> synthesis diameter = LaserAblationArcDischarge) /\
  (1 <= diameter < 2 -> synthesis diameter = CvdPecvd) /\
  (2 <= diameter -> synthesis diameter = FiberMwcnt) /\
  synthesis 1 = CvdPecvd /\
  synthesis 2 = FiberMwcnt.
Proof.
  unfold synthesis. repeat split; intros;
    repeat match goal with
           | |- context [Rlt_dec ?x ?y] => destruct (Rlt_dec x y)
           end; try reflexivity; lra.
Qed.

Lemma synthesis_step_function_witness :
  synthesis 0.5 = LaserAblationArcDischarge /\
  synthesis 1.5 = CvdPecvd /\
  synthesis 2.5 = FiberMwcnt.
Proof.
  split; [apply (synthesis_step_function 0.5); lra |].
  split; [apply (synthesis_step_function 1.5); lra |].
  apply (synthesis_step_function 2.5); lra.
Defined.

(** ** Interconnect resistance *)

Lemma resistance_Ok (length_um diameter : R) :
  0 < diameter ->
  resistance length_um diameter =
  Ok (rho * (length_cm length_um / (diameter * 1e-7))).
Proof.
  intros Hd. unfold resistance. rewrite div_Ok; [reflexivity | lra].
Qed.

Section ResistanceOnDoubles.

Import PrimFloat.
Local Open Scope float_scope.
#[local] Set Warnings "-inexact-float".

(** C7, as stated, fails on the doubles of the script: for the default
    tube (12, 6), three times the length 1.0 does not give three times
    the resistance, and at the length 0.1 the value computed is not the
    closed form 1e-6 * (L * 1e-4) / (diameter * 1e-7). *)
Lemma resistance_scaling_not_exact_on_doubles :
  F64.diameter 12 6 = Ok 1.2430411468746831 /\
  F64.resistance 1 1.2430411468746831 = Ok 0.00080447859872881161 /\
  F64.resistance (3 * 1) 1.2430411468746831 = Ok 0.0024134357961864352 /\
  3 * 0.00080447859872881161 = 0.0024134357961864347 /\
  (0.0024134357961864352 =? 3 * 0.00080447859872881161) = false /\
  F64.resistance 0.1 1.2430411468746831 = Ok 8.0447859872881161e-05 /\
  (8.0447859872881161e-05 =? F64.closed_form 0.1 1.2430411468746831) = false.
Proof. repeat split; vm_compute; reflexivity. Qed.

End ResistanceOnDoubles.

(** C7, amended: for lengths in [0.1, 20] and a positive diameter the
    resistance is 1e-6 * ((L * 1e-4) / (diameter * 1e-7)), it is positive,
    and it does not decrease when the length grows. *)
Theorem resistance_positive_and_increasing (L L' diameter : R) :
  0.1 <= L <= L' -> L' <= 20 -> 0 < diameter ->
  exists r r',
    resistance L diameter = Ok r /\
    resistance L' diameter = Ok r' /\
    r = 1e-6 * ((L * 1e-4) / (diameter * 1e-7)) /\
    0 < r /\
    r <= r'.
Proof.
  intros HL HL' Hd. do 2 eexists.
  split; [apply resistance_Ok; exact Hd |].
  split; [apply resistance_Ok; exact Hd |].
  split; [reflexivity |].
  assert (Hinv : 0 < / (diameter * 1e-7)) by (apply Rinv_0_lt_compat; lra).
  unfold rho, length_cm, Rdiv. split.
  - apply Rmult_lt_0_compat; [lra |]. apply Rmult_lt_0_compat; lra.
  - apply Rmult_le_compat_l; [lra |].
    apply Rmult_le_compat_r; lra.
Qed.

Lemma resistance_positive_and_increasing_witness :
  exists r r',
    resistance 1 1 = Ok r /\
    resistance 3 1 = Ok r' /\
    r = 1e-6 * ((1 * 1e-4) / (1 * 1e-7)) /\
    0 < r /\
    r <= r'.
Proof. apply (resistance_positive_and_increasing 1 3 1); lra. Defined.

(** ** Band structure *)

Lemma length_range (n : Z) : List.length (range n) = Z.to_nat n.
Proof. unfold range. rewrite length_map, length_seq. reflexivity. Qed.

Lemma nth_range (n : Z) (i : nat) (dflt : Z) :
  (i < Z.to_nat n)%nat -> nth i (range n) dflt = Z.of_nat i.
Proof.
  intros Hi. unfold range.
  rewrite (nth_indep _ dflt (Z.of_nat 0)) by (rewrite length_map, length_seq; exact Hi).
  rewrite map_nth, seq_nth by exact Hi. reflexivity.
Qed.

Lemma In_range (n x : Z) : In x (range n) <-> (0 <= x < n)%Z.
Proof.
  unfold range. rewrite in_map_iff. split.
  - intros [i [<- Hi]]. apply in_seq in Hi. lia.
  - intros Hx. exists (Z.to_nat x). split; [lia |]. apply in_seq. lia.
Qed.

Lemma length_linspace (start stop : R) (num : Z) :
  List.length (linspace start stop num) = Z.to_nat num.
Proof. unfold linspace. rewrite length_map. apply length_range. Qed.

Lemma nth_linspace (start stop : R) (num : Z) (i : nat) :
  (i < Z.to_nat num)%nat ->
  nth i (linspace start stop num) 0 =
  start + INR i * ((stop - start) / IZR (num - 1)).
Proof.
  intros Hi. unfold linspace.
  set (f := fun j : Z => start + IZR j * ((stop - start) / IZR (num - 1))).
  rewrite (nth_indep _ 0 (f 0%Z))
    by (rewrite length_map, length_range; exact Hi).
  rewrite map_nth, nth_range by exact Hi.
  unfold f. rewrite <- INR_IZR_INZ. reflexivity.
Qed.

Lemma In_linspace (start stop : R) (num : Z) (x : R) :
  In x (linspace start stop num) ->
  exists i, (0 <= i < num)%Z /\ x = start + IZR i * ((stop - start) / IZR (num - 1)).
Proof.
  unfold linspace. rewrite in_map_iff. intros [i [Hx Hi]].
  exists i. split; [apply In_range; exact Hi | symmetry; exact Hx].
Qed.

(** The last sample is [stop], as numpy makes it. *)
Lemma linspace_last (start stop : R) (num : Z) :
  (1 < num)%Z ->
  nth (Z.to_nat (num - 1)) (linspace start stop num) 0 = stop.
Proof.
  intros Hnum. rewrite nth_linspace by lia.
  rewrite INR_IZR_INZ, Z2Nat.id by lia.
  field. apply not_0_IZR. lia.
Qed.

Lemma k_bounds (x : R) : In x k -> -3 <= x <= 3.
Proof.
  intros Hx. apply In_linspace in Hx. destruct Hx as [i [Hi ->]].
  change (IZR (400 - 1)) with 399.
  assert (H0 : 0 <= IZR i) by (apply IZR_le; lia).
  assert (H1 : IZR i <= 399) by (apply IZR_le; lia).
  lra.
Qed.

Lemma E_semiconducting_Ok (bandgap : R) :
  E false bandgap = Ok (map (E_semiconducting (bandgap / 2)) k).
Proof. unfold E. rewrite div_Ok by lra. reflexivity. Qed.

(** C9: the wavevectors are 400 evenly spaced samples of [-3, 3]; the
    energies are 0.2 * k for a metallic tube and
    sqrt((bandgap/2)^2 + 0.25 * k^2) for a semiconducting one; the figure
    draws E and -E over k. *)
Theorem band_curve_samples :
  List.length k = 400%nat /\
  (forall i, (i < 400)%nat -> nth i k 0 = -3 + INR i * (6 / 399)) /\
  nth 0 k 0 = -3 /\
  nth 399 k 0 = 3 /\
  (forall i, (i < 399)%nat -> nth (S i) k 0 - nth i k 0 = 6 / 399) /\
  (forall x, In x k -> -3 <= x <= 3) /\
  (forall bandgap, E true bandgap = Ok (map (fun x => 0.2 * x) k)) /\
  (forall bandgap,
      E false bandgap =
      Ok (map (fun x => sqrt ((bandgap / 2) ^ 2 + 0.25 * x ^ 2)) k)) /\
  (forall Es, band_plot Es = [(k, Es); (k, map Ropp Es)]).
Proof.
  assert (Hnth : forall i, (i < 400)%nat -> nth i k 0 = -3 + INR i * (6 / 399)).
  { intros i Hi. unfold k. rewrite nth_linspace by exact Hi.
    change (IZR (400 - 1)) with 399. lra. }
  split; [apply length_linspace |].
  split; [exact Hnth |].
  split; [rewrite Hnth by lia; simpl; lra |].
  split; [apply (linspace_last (-3) 3 400); lia |].
  split.
  { intros i Hi. rewrite !Hnth by lia. rewrite S_INR. lra. }
  split; [exact k_bounds |].
  split; [reflexivity |].
  split; [exact E_semiconducting_Ok |].
  reflexivity.
Qed.

Lemma band_curve_samples_witness :
  nth 1 k 0 = -3 + INR 1 * (6 / 399).
Proof.
  destruct band_curve_samples as [_ [Hnth _]].
  apply Hnth. lia.
Defined.

(** ** Chirality heat map *)

Section Arrays.

Context {A : Type}.

Lemma length_update (l : list A) (i : nat) (f : A -> A) :
  List.length (update l i f) = List.length l.
Proof.
  revert i. induction l as [|x l IH]; intros [|i]; simpl; auto.
Qed.

Lemma nth_update_eq (l : list A) (i : nat) (f : A -> A) (dflt : A) :
  (i < List.length l)%nat -> nth i (update l i f) dflt = f (nth i l dflt).
Proof.
  revert i. induction l as [|x l IH]; intros [|i] Hi; simpl in *;
    try lia; auto.
  apply IH. lia.
Qed.

Lemma nth_update_neq (l : list A) (i j : nat) (f : A -> A) (dflt : A) :
  i <> j -> nth j (update l i f) dflt = nth j l dflt.
Proof.
  revert i j. induction l as [|x l IH]; intros [|i] [|j] Hij; simpl;
    try reflexivity; try congruence.
  apply IH. congruence.
Qed.

End Arrays.

Lemma index_Ok (len i : nat) :
  (i < len)%nat -> index len (Z.of_nat i) = Ok i.
Proof.
  intros Hi. unfold index.
  destruct (Z.ltb_spec (Z.of_nat i) 0) as [H|_]; [lia |].
  destruct (Z.leb_spec 0 (Z.of_nat i)) as [_|H]; [| lia].
  destruct (Z.ltb_spec (Z.of_nat i) (Z.of_nat len)) as [_|H]; [| lia].
  simpl. rewrite Nat2Z.id. reflexivity.
Qed.

Lemma setitem2_Ok (rows cols : nat) (g : list (list R)) (i j : nat) (v : R) :
  shape rows cols g -> (i < rows)%nat -> (j < cols)%nat ->
  setitem2 g (Z.of_nat i) (Z.of_nat j) v = Ok (set2 g i j v).
Proof.
  intros [Hrows Hcols] Hi Hj. unfold setitem2.
  rewrite index_Ok by lia. simpl.
  rewrite index_Ok by (rewrite Hcols by exact Hi; exact Hj).
  reflexivity.
Qed.

Lemma getitem2_Ok (rows cols : nat) (g : list (list R)) (i j : nat) :
  shape rows cols g -> (i < rows)%nat -> (j < cols)%nat ->
  getitem2 g (Z.of_nat i) (Z.of_nat j) = Ok (get2 g i j).
Proof.
  intros [Hrows Hcols] Hi Hj. unfold getitem2.
  rewrite index_Ok by lia. simpl.
  rewrite index_Ok by (rewrite Hcols by exact Hi; exact Hj).
  reflexivity.
Qed.

Lemma shape_set2 (rows cols : nat) (g : list (list R)) (i j : nat) (v : R) :
  shape rows cols g -> shape rows cols (set2 g i j v).
Proof.
  intros [Hrows Hcols]. unfold set2. split.
  - rewrite length_update. exact Hrows.
  - intros i' Hi'. destruct (Nat.eq_dec i i') as [<-|Hne].
    + rewrite nth_update_eq by lia. rewrite length_update.
      apply Hcols. exact Hi'.
    + rewrite nth_update_neq by exact Hne. apply Hcols. exact Hi'.
Qed.

Lemma get2_set2_eq (rows cols : nat) (g : list (list R)) (i j : nat) (v : R) :
  shape rows cols g -> (i < rows)%nat -> (j < cols)%nat ->
  get2 (set2 g i j v) i j = v.
Proof.
  intros [Hrows Hcols] Hi Hj. unfold get2, set2.
  rewrite nth_update_eq by lia.
  rewrite nth_update_eq by (rewrite Hcols by exact Hi; exact Hj).
  reflexivity.
Qed.

Lemma get2_set2_neq (g : list (list R)) (i j i' j' : nat) (v : R) :
  (i, j) <> (i', j') ->
  get2 (set2 g i j v) i' j' = get2 g i' j'.
Proof.
  intros Hne. unfold get2, set2.
  destruct (Nat.eq_dec i i') as [<-|Hi].
  - destruct (Nat.lt_ge_cases i (List.length g)) as [Hlt|Hge].
    + rewrite nth_update_eq by exact Hlt.
      apply nth_update_neq. congruence.
    + rewrite !(nth_overflow _ []) by (rewrite ?length_update; exact Hge).
      reflexivity.
  - rewrite nth_update_neq by exact Hi. reflexivity.
Qed.

Lemma shape_zeros (rows cols : Z) :
  shape (Z.to_nat rows) (Z.to_nat cols) (zeros rows cols).
Proof.
  unfold zeros. split.
  - apply repeat_length.
  - intros i Hi. rewrite nth_repeat_lt by exact Hi. apply repeat_length.
Qed.

(** A counted loop preserves an invariant indexed by the number of
    iterations done, and does not raise if no iteration does. *)
Lemma for_each_seq {S : Type} (P : nat -> S -> Prop)
      (body : Z -> S -> result S) (len start : nat) (s : S) :
  P start s ->
  (forall i s0, (start <= i < start + len)%nat -> P i s0 ->
                exists s1, body (Z.of_nat i) s0 = Ok s1 /\ P (Datatypes.S i) s1) ->
  exists s', for_each (map Z.of_nat (seq start len)) body s = Ok s' /\
             P (start + len)%nat s'.
Proof.
  revert start s. induction len as [|len IH]; intros start s H0 Hstep.
  - exists s. rewrite Nat.add_0_r. split; [reflexivity | exact H0].
  - simpl. destruct (Hstep start s) as [s1 [Hs1 HP1]]; [lia | exact H0 |].
    rewrite Hs1. simpl.
    destruct (IH (Datatypes.S start) s1 HP1) as [s' [Hs' HP']].
    + intros i s0 Hi. apply Hstep. lia.
    + exists s'. split; [exact Hs' |].
      replace (start + Datatypes.S len)%nat with (Datatypes.S start + len)%nat by lia.
      exact HP'.
Qed.

Lemma for_each_range {S : Type} (P : nat -> S -> Prop)
      (body : Z -> S -> result S) (n : Z) (s : S) :
  P 0%nat s ->
  (forall i s0, (i < Z.to_nat n)%nat -> P i s0 ->
                exists s1, body (Z.of_nat i) s0 = Ok s1 /\ P (Datatypes.S i) s1) ->
  exists s', for_each (range n) body s = Ok s' /\ P (Z.to_nat n) s'.
Proof.
  intros H0 Hstep. unfold range.
  apply (for_each_seq P body (Z.to_nat n) 0 s H0).
  intros i s0 Hi. apply Hstep. lia.
Qed.

(** The fallback diameter is taken at (0, 0) only, and the formula
    elsewhere; neither raises. *)
Lemma d_0_0 : d 0 0 = Ok 0.0001.
Proof. reflexivity. Qed.

Lemma d_Ok (i j : Z) :
  (0 < i + j)%Z -> d i j = Ok (a / PI * sqrt (IZR (i ^ 2 + i * j + j ^ 2))).
Proof.
  intros Hij. unfold d.
  destruct (Z.gtb_spec (i + j) 0) as [_|H]; [| lia].
  rewrite a_over_pi_Ok. simpl.
  rewrite math_sqrt_Ok; [reflexivity |].
  apply IZR_le. apply form_nonneg.
Qed.

(** One iteration of the inner loop stores [cell_value i j]. *)
Lemma grid_cell_Ok (rows cols : nat) (g : list (list R)) (i j : nat) :
  shape rows cols g -> (i < rows)%nat -> (j < cols)%nat ->
  grid_cell (Z.of_nat i) (Z.of_nat j) g =
  Ok (set2 g i j (cell_value (Z.of_nat i) (Z.of_nat j))).
Proof.
  intros Hg Hi Hj. unfold grid_cell, cell_value.
  destruct (Z_lt_le_dec 0 (Z.of_nat i + Z.of_nat j)) as [Hpos|Hzero].
  - rewrite d_Ok by exact Hpos. simpl.
    destruct ((Z.of_nat i - Z.of_nat j) mod 3 =? 0)%Z.
    + apply (setitem2_Ok rows cols); assumption.
    + rewrite div_Ok.
      * simpl. apply (setitem2_Ok rows cols); assumption.
      * apply Rgt_not_eq. apply diameter_value_pos. lia.
  - assert (i = 0%nat) as -> by lia. assert (j = 0%nat) as -> by lia.
    simpl Z.of_nat. rewrite d_0_0. simpl.
    apply (setitem2_Ok rows cols g 0 0); assumption.
Qed.

(** The invariant of the outer loop after [i] rows, and of the inner loop
    after [j] cells of row [i]. *)
Lemma grid_filled (size : Z) :
  exists g, grid size = Ok g /\
            shape (Z.to_nat size) (Z.to_nat size) g /\
            forall i j, (i < Z.to_nat size)%nat -> (j < Z.to_nat size)%nat ->
                        get2 g i j = cell_value (Z.of_nat i) (Z.of_nat j).
Proof.
  set (N := Z.to_nat size).
  pose (rows_done := fun (i : nat) (g : list (list R)) =>
    shape N N g /\
    forall i' j', (i' < i)%nat -> (j' < N)%nat ->
                  get2 g i' j' = cell_value (Z.of_nat i') (Z.of_nat j')).
  pose (cells_done := fun (i j : nat) (g : list (list R)) =>
    shape N N g /\
    (forall i' j', (i' < i)%nat -> (j' < N)%nat ->
                   get2 g i' j' = cell_value (Z.of_nat i') (Z.of_nat j')) /\
    (forall j', (j' < j)%nat ->
                get2 g i j' = cell_value (Z.of_nat i) (Z.of_nat j'))).
  destruct (for_each_range rows_done
              (fun i g => for_each (range size)
                                   (fun j g' => grid_cell i j g') g)
              size (zeros size size)) as [g [Hg [Hshape Hcells]]].
  - split; [apply shape_zeros | intros; lia].
  - intros i g0 Hi [Hshape0 Hrows0].
    destruct (for_each_range (cells_done i)
                (fun j g' => grid_cell (Z.of_nat i) j g') size g0)
      as [g1 [Hg1 [Hshape1 [Hrows1 Hrow1]]]].
    + split; [exact Hshape0 |]. split; [exact Hrows0 | intros; lia].
    + intros j g' Hj [Hshape' [Hrows' Hrow']].
      exists (set2 g' i j (cell_value (Z.of_nat i) (Z.of_nat j))).
      split; [apply (grid_cell_Ok N N); assumption |].
      split; [apply shape_set2; exact Hshape' |].
      split.
      * intros i' j' Hi' Hj'. rewrite get2_set2_neq.
        -- apply Hrows'; assumption.
        -- intros Heq. inversion Heq. lia.
      * intros j' Hj'. destruct (Nat.eq_dec j j') as [<-|Hne].
        -- apply (get2_set2_eq N N); assumption.
        -- rewrite get2_set2_neq.
           ++ apply Hrow'. lia.
           ++ intros Heq. inversion Heq. lia.
    + exists g1. split; [exact Hg1 |]. split; [exact Hshape1 |].
      intros i' j' Hi' Hj'.
      destruct (Nat.eq_dec i' i) as [->|Hne].
      * apply Hrow1. exact Hj'.
      * apply Hrows1; [lia | exact Hj'].
  - exists g. split; [exact Hg |]. split; [exact Hshape |].
    intros i j Hi Hj. apply Hcells; assumption.
Qed.

(** Every cell of the finished grid, read back by its indices. *)
Lemma grid_getitem (size : Z) :
  exists g, grid size = Ok g /\
            forall i j, (0 <= i < size)%Z -> (0 <= j < size)%Z ->
                        getitem2 g i j = Ok (cell_value i j).
Proof.
  destruct (grid_filled size) as [g [Hg [Hshape Hcells]]].
  exists g. split; [exact Hg |].
  intros i j Hi Hj.
  rewrite <- (Z2Nat.id i), <- (Z2Nat.id j) by lia.
  rewrite (getitem2_Ok (Z.to_nat size) (Z.to_nat size)) by (assumption || lia).
  rewrite Hcells by lia. reflexivity.
Qed.

(** ** One run of the script *)

(** With the widgets in their ranges the script runs to its end, and the
    heat map it shows is the one of its grid size alone. *)
Lemma run_Ok (x : inputs) :
  in_range x ->
  exists t g o,
    geometry (in_n x) (in_m x) = Ok t /\
    grid (in_size x) = Ok g /\
    run x = Ok o /\
    out_diameter o = tube_diameter t /\
    out_metallic o = tube_metallic t /\
    out_bandgap o = tube_bandgap t /\
    out_grid o = g.
Proof.
  intros [Hn [Hm _]].
  unfold accepts in Hn, Hm. simpl in Hn, Hm.
  apply andb_prop in Hn. destruct Hn as [Hn _]. apply Z.leb_le in Hn.
  apply andb_prop in Hm. destruct Hm as [Hm _]. apply Z.leb_le in Hm.
  destruct (geometry_in_range (in_n x) (in_m x) Hn Hm)
    as [t [Ht Hpos]].
  destruct (grid_filled (in_size x)) as [g [Hg _]].
  assert (HE : exists Es, E (tube_metallic t) (tube_bandgap t) = Ok Es).
  { destruct (tube_metallic t).
    - eexists. reflexivity.
    - eexists. apply E_semiconducting_Ok. }
  destruct HE as [Es HE].
  exists t, g. eexists.
  split; [exact Ht |]. split; [exact Hg |].
  unfold run. rewrite Ht. simpl. rewrite HE. simpl.
  rewrite Vt_Ok. simpl. rewrite Hg. simpl.
  rewrite resistance_Ok by exact Hpos. simpl.
  split; [reflexivity |]. simpl. repeat split; reflexivity.
Qed.

(** C8: for a grid size in [10, 40], every cell (i, j) other than (0, 0)
    holds 0 when (i - j) mod 3 = 0 and
    0.7 / ((0.246 / pi) * sqrt(i^2 + i*j + j^2)) otherwise, and the grid
    a run shows depends on the grid size only, not on the selected tube. *)
Theorem grid_cells (size : Z) :
  (10 <= size <= 40)%Z ->
  exists g,
    grid size = Ok g /\
    (forall i j, (0 <= i < size)%Z -> (0 <= j < size)%Z -> (0 < i + j)%Z ->
       getitem2 g i j =
       Ok (if ((i - j) mod 3 =? 0)%Z then 0
           else 0.7 / (0.246 / PI * sqrt (IZR (i ^ 2 + i * j + j ^ 2))))) /\
    (forall x, in_range x -> in_size x = size ->
               exists o, run x = Ok o /\ out_grid o = g).
Proof.
  intros Hsize.
  destruct (grid_getitem size) as [g [Hg Hcells]].
  exists g. split; [exact Hg |]. split.
  - intros i j Hi Hj _. apply Hcells; assumption.
  - intros x Hx Hsz.
    destruct (run_Ok x Hx) as [t [g' [o [_ [Hg' [Ho [_ [_ [_ Hout]]]]]]]]].
    exists o. split; [exact Ho |].
    rewrite Hsz, Hg in Hg'. injection Hg' as <-. exact Hout.
Qed.

Lemma grid_cells_witness :
  exists g,
    grid 20 = Ok g /\
    (forall i j, (0 <= i < 20)%Z -> (0 <= j < 20)%Z -> (0 < i + j)%Z ->
       getitem2 g i j =
       Ok (if ((i - j) mod 3 =? 0)%Z then 0
           else 0.7 / (0.246 / PI * sqrt (IZR (i ^ 2 + i * j + j ^ 2))))) /\
    (forall x, in_range x -> in_size x = 20%Z ->
               exists o, run x = Ok o /\ out_grid o = g).
Proof. apply (grid_cells 20). lia. Defined.

(** C2, as stated, fails: with the default grid size the cell (0, 0) holds
    0, which is not 0.7 / 0.0001. *)
Lemma grid_origin_is_not_the_fallback_quotient :
  exists g, grid 20 = Ok g /\
            getitem2 g 0 0 = Ok 0 /\
            getitem2 g 0 0 <> Ok (0.7 / 0.0001).
Proof.
  destruct (grid_getitem 20) as [g [Hg Hcells]].
  exists g. split; [exact Hg |].
  assert (H00 : getitem2 g 0 0 = Ok 0) by (apply (Hcells 0%Z 0%Z); lia).
  split; [exact H00 |].
  rewrite H00. intros Heq. injection Heq as Heq. lra.
Qed.

(** C2, amended: at the cell (0, 0) the diameter is the fallback 0.0001,
    but the cell is on the metallic line, (0 - 0) mod 3 = 0, so the value
    stored is 0 and 0.7 / 0.0001 is never computed. *)
Theorem grid_origin_is_zero (size : Z) :
  (10 <= size <= 40)%Z ->
  d 0 0 = Ok 0.0001 /\
  ((0 - 0) mod 3 =? 0)%Z = true /\
  exists g, grid size = Ok g /\ getitem2 g 0 0 = Ok 0.
Proof.
  intros Hsize. split; [exact d_0_0 |]. split; [reflexivity |].
  destruct (grid_getitem size) as [g [Hg Hcells]].
  exists g. split; [exact Hg |].
  apply (Hcells 0%Z 0%Z); lia.
Qed.

Lemma grid_origin_is_zero_witness :
  d 0 0 = Ok 0.0001 /\
  ((0 - 0) mod 3 =? 0)%Z = true /\
  exists g, grid 10 = Ok g /\ getitem2 g 0 0 = Ok 0.
Proof. apply (grid_origin_is_zero 10). lia. Defined.

(** * Further properties of the script *)

(** Four decimals of pi, from the series of [2 atan(1/3) + atan(1/7)]. *)
Lemma PI_4_decimals : 3.1415 < PI < 3.1416.
Proof.
  pose proof (PI_2_3_7_ineq 2) as H.
  unfold PI_2_3_7_tg, tg_alt, Ratan_seq in H. simpl in H. lra.
Qed.

(** ** Which tubes are metallic *)

Lemma metallic_false_spec (n m : Z) :
  metallic n m = false <-> ((n - m) mod 3 <> 0)%Z.
Proof. unfold metallic. apply Z.eqb_neq. Qed.

(** X1: the classification is symmetric in n and m, has period 3 in
    each index, and every armchair tube (n, n) is metallic, for all
    integers, negative differences included. *)
Theorem metallic_symmetric_periodic (n m : Z) :
  metallic n m = metallic m n /\
  metallic (n + 3) m = metallic n m /\
  metallic n (m + 3) = metallic n m /\
  metallic n n = true.
Proof.
  unfold metallic. repeat split.
  - destruct (Z.eqb_spec ((n - m) mod 3) 0), (Z.eqb_spec ((m - n) mod 3) 0);
      try reflexivity; exfalso; Z.div_mod_to_equations; lia.
  - destruct (Z.eqb_spec ((n + 3 - m) mod 3) 0), (Z.eqb_spec ((n - m) mod 3) 0);
      try reflexivity; exfalso; Z.div_mod_to_equations; lia.
  - destruct (Z.eqb_spec ((n - (m + 3)) mod 3) 0), (Z.eqb_spec ((n - m) mod 3) 0);
      try reflexivity; exfalso; Z.div_mod_to_equations; lia.
  - rewrite Z.sub_diag. reflexivity.
Qed.

(** X2: of three consecutive values of n at a fixed m, exactly one gives
    a metallic tube. *)
Theorem one_in_three_metallic (n m : Z) :
  (Nat.b2n (metallic n m) + Nat.b2n (metallic (n + 1) m)
   + Nat.b2n (metallic (n + 2) m) = 1)%nat.
Proof.
  unfold metallic.
  destruct (Z.eqb_spec ((n - m) mod 3) 0),
           (Z.eqb_spec ((n + 1 - m) mod 3) 0),
           (Z.eqb_spec ((n + 2 - m) mod 3) 0);
    simpl; try reflexivity; exfalso; Z.div_mod_to_equations; lia.
Qed.

(** ** Diameter and bandgap of the selected tube *)

Lemma sqrt_form_ge_1 (n m : Z) :
  (n <> 0 \/ m <> 0)%Z -> 1 <= sqrt (IZR (n ^ 2 + n * m + m ^ 2)).
Proof.
  intros H. rewrite <- sqrt_1 at 1. apply sqrt_le_1_alt.
  apply IZR_le. pose proof (form_pos n m H). lia.
Qed.

(** X3: the diameter is symmetric in n and m and, on non-negative
    indices, does not decrease when an index grows. *)
Theorem diameter_symmetric_monotone (n m n' m' : Z) :
  (0 <= n <= n')%Z -> (0 <= m <= m')%Z ->
  diameter n m = diameter m n /\
  exists d_ d', diameter n m = Ok d_ /\ diameter n' m' = Ok d' /\ d_ <= d'.
Proof.
  intros Hn Hm. split.
  - rewrite !diameter_Ok.
    replace (m ^ 2 + m * n + n ^ 2)%Z with (n ^ 2 + n * m + m ^ 2)%Z by ring.
    reflexivity.
  - do 2 eexists. split; [apply diameter_Ok |]. split; [apply diameter_Ok |].
    apply Rmult_le_compat_l; [apply Rlt_le; exact a_over_pi_pos |].
    apply sqrt_le_1_alt. apply IZR_le. nia.
Qed.

Lemma diameter_symmetric_monotone_witness :
  diameter 10 0 = diameter 0 10 /\
  exists d_ d', diameter 10 0 = Ok d_ /\ diameter 12 6 = Ok d' /\ d_ <= d'.
Proof. apply (diameter_symmetric_monotone 10 0 12 6); lia. Defined.

Lemma geometry_1_0 :
  geometry 1 0 =
  Ok {| tube_diameter := 0.246 / PI;
        tube_metallic := false;
        tube_bandgap := 0.7 / (0.246 / PI) |}.
Proof.
  rewrite geometry_semiconducting by (reflexivity || lia).
  change (IZR (1 ^ 2 + 1 * 0 + 0 ^ 2)) with 1.
  rewrite sqrt_1, Rmult_1_r. reflexivity.
Qed.

(** X4: for n >= 1 and m >= 0 the diameter is at least 0.246 / pi, more
    than 0.0783, and the bandgap lies between 0 and 0.7 / (0.246 / pi),
    less than 8.94; the tube (1, 0) reaches both bounds. *)
Theorem diameter_and_gap_bounds (n m : Z) :
  (1 <= n)%Z -> (0 <= m)%Z ->
  (exists t, geometry n m = Ok t /\
             0.0783 < 0.246 / PI <= tube_diameter t /\
             0 <= tube_bandgap t <= 0.7 / (0.246 / PI) /\
             0.7 / (0.246 / PI) < 8.94) /\
  (exists t0, geometry 1 0 = Ok t0 /\
              tube_diameter t0 = 0.246 / PI /\
              tube_bandgap t0 = 0.7 / (0.246 / PI)).
Proof.
  intros Hn Hm.
  split; [| eexists; split; [exact geometry_1_0 | split; reflexivity]].
  assert (Hnz : (n <> 0 \/ m <> 0)%Z) by lia.
  pose proof (sqrt_form_ge_1 n m Hnz) as Hs.
  pose proof a_over_pi_pos as Hq. unfold a in Hq.
  pose proof PI_4_decimals as HPI.
  assert (Hlow : 0.0783 < 0.246 / PI).
  { assert (Heq : 0.246 / PI * PI = 0.246) by (field; apply PI_neq0). nra. }
  assert (Hdiam : 0.246 / PI <= a / PI * sqrt (IZR (n ^ 2 + n * m + m ^ 2))).
  { unfold a. nra. }
  assert (Hup : 0.7 / (0.246 / PI) < 8.94).
  { replace (0.7 / (0.246 / PI)) with (0.7 * PI / 0.246)
      by (field; split; [apply PI_neq0 | lra]).
    lra. }
  destruct (metallic n m) eqn:Hmet.
  - eexists. split; [apply geometry_metallic; exact Hmet |].
    cbn [tube_diameter tube_bandgap].
    split; [split; assumption |].
    split; [| exact Hup].
    split; [lra |]. apply Rlt_le. apply Rdiv_lt_0_compat; lra.
  - eexists. split; [apply geometry_semiconducting; assumption |].
    cbn [tube_diameter tube_bandgap].
    split; [split; assumption |].
    split; [| exact Hup].
    split.
    + apply Rlt_le. apply Rdiv_lt_0_compat; [lra |].
      apply diameter_value_pos. exact Hnz.
    + unfold Rdiv at 1 3. apply Rmult_le_compat_l; [lra |].
      apply Rinv_le_contravar; [exact Hq | exact Hdiam].
Qed.

Lemma diameter_and_gap_bounds_witness :
  exists t, geometry 10 0 = Ok t /\
            0.0783 < 0.246 / PI <= tube_diameter t /\
            0 <= tube_bandgap t <= 0.7 / (0.246 / PI) /\
            0.7 / (0.246 / PI) < 8.94.
Proof. apply (diameter_and_gap_bounds 10 0); lia. Defined.

(** X5: of two tubes that are not metallic, the one with the larger
    n^2 + n*m + m^2 has the larger diameter and the smaller bandgap. *)
Theorem wider_tube_smaller_gap (n m n' m' : Z) :
  (1 <= n)%Z -> (0 <= m)%Z -> (1 <= n')%Z -> (0 <= m')%Z ->
  metallic n m = false -> metallic n' m' = false ->
  (n ^ 2 + n * m + m ^ 2 < n' ^ 2 + n' * m' + m' ^ 2)%Z ->
  exists t t', geometry n m = Ok t /\ geometry n' m' = Ok t' /\
               tube_diameter t < tube_diameter t' /\
               tube_bandgap t' < tube_bandgap t.
Proof.
  intros Hn Hm Hn' Hm' Hsemi Hsemi' Hlt.
  assert (Hnz : (n <> 0 \/ m <> 0)%Z) by lia.
  assert (Hnz' : (n' <> 0 \/ m' <> 0)%Z) by lia.
  pose proof (diameter_value_pos n m Hnz) as Hpos.
  pose proof (diameter_value_pos n' m' Hnz') as Hpos'.
  assert (Hd : a / PI * sqrt (IZR (n ^ 2 + n * m + m ^ 2))
               < a / PI * sqrt (IZR (n' ^ 2 + n' * m' + m' ^ 2))).
  { apply Rmult_lt_compat_l; [exact a_over_pi_pos |].
    apply sqrt_lt_1_alt. split.
    - apply IZR_le. apply form_nonneg.
    - apply IZR_lt. exact Hlt. }
  do 2 eexists.
  split; [apply geometry_semiconducting; assumption |].
  split; [apply geometry_semiconducting; assumption |].
  cbn [tube_diameter tube_bandgap].
  split; [exact Hd |].
  unfold Rdiv. apply Rmult_lt_compat_l; [lra |].
  apply Rinv_lt_contravar; [apply Rmult_lt_0_compat; assumption | exact Hd].
Qed.

Lemma wider_tube_smaller_gap_witness :
  exists t t', geometry 10 0 = Ok t /\ geometry 11 0 = Ok t' /\
               tube_diameter t < tube_diameter t' /\
               tube_bandgap t' < tube_bandgap t.
Proof.
  apply (wider_tube_smaller_gap 10 0 11 0); (lia || reflexivity).
Defined.

(** ** Which tubes get which recommendation *)

Lemma a_over_pi_scaled (x : R) : a / PI * x * PI = 0.246 * x.
Proof. unfold a. field. apply PI_neq0. Qed.

(** X6: the recommendation follows from q = n^2 + n*m + m^2 alone: laser
    ablation / arc discharge up to q = 163, CVD / PECVD from 164 to 652,
    fiber / MWCNT growth from 653 on. *)
Theorem synthesis_by_chirality (n m : Z) :
  exists d_, diameter n m = Ok d_ /\
    ((n ^ 2 + n * m + m ^ 2 <= 163)%Z ->
     synthesis d_ = LaserAblationArcDischarge) /\
    ((164 <= n ^ 2 + n * m + m ^ 2 <= 652)%Z ->
     synthesis d_ = CvdPecvd) /\
    ((653 <= n ^ 2 + n * m + m ^ 2)%Z ->
     synthesis d_ = FiberMwcnt).
Proof.
  eexists. split; [apply diameter_Ok |].
  set (q := (n ^ 2 + n * m + m ^ 2)%Z).
  pose proof (form_nonneg n m) as Hq0. fold q in Hq0.
  apply IZR_le in Hq0.
  pose proof (sqrt_pos (IZR q)) as Hs0.
  pose proof (sqrt_sqrt (IZR q) Hq0) as Hss.
  pose proof (a_over_pi_scaled (sqrt (IZR q))) as Hscaled.
  pose proof PI_4_decimals as HPI.
  set (s := sqrt (IZR q)) in *.
  set (y := a / PI * s) in *.
  assert (Hy1 : y < 1 <-> 0.246 * s < PI) by (split; intros; nra).
  assert (Hy2 : y < 2 <-> 0.246 * s < 2 * PI) by (split; intros; nra).
  unfold synthesis.
  split; [| split].
  - intros Hq. apply IZR_le in Hq.
    assert (Hs : s < 12.7672) by nra.
    destruct (Rlt_dec y 1) as [_|Hge]; [reflexivity |].
    exfalso. apply Hge, Hy1. lra.
  - intros [Hlo Hhi]. apply IZR_le in Hlo, Hhi.
    assert (Hs1 : 12.806 < s) by nra.
    assert (Hs2 : s < 25.5343) by nra.
    destruct (Rlt_dec y 1) as [Hlt|_]; [exfalso; apply Hy1 in Hlt; lra |].
    destruct (Rlt_dec y 2) as [_|Hge]; [reflexivity |].
    exfalso. apply Hge, Hy2. lra.
  - intros Hq. apply IZR_le in Hq.
    assert (Hs : 25.5538 < s) by nra.
    destruct (Rlt_dec y 1) as [Hlt|_]; [exfalso; apply Hy1 in Hlt; lra |].
    destruct (Rlt_dec y 2) as [Hlt|_]; [exfalso; apply Hy2 in Hlt; lra |].
    reflexivity.
Qed.

Lemma synthesis_by_chirality_witness :
  exists d_, diameter 12 6 = Ok d_ /\ synthesis d_ = CvdPecvd.
Proof.
  destruct (synthesis_by_chirality 12 6) as [d_ [Hd [_ [Hcvd _]]]].
  exists d_. split; [exact Hd |]. apply Hcvd. lia.
Defined.

(** ** The heat map as a whole *)

Lemma cell_value_sym (i j : Z) : cell_value i j = cell_value j i.
Proof.
  unfold cell_value.
  replace (j ^ 2 + j * i + i ^ 2)%Z with (i ^ 2 + i * j + j ^ 2)%Z by ring.
  destruct (Z.eqb_spec ((i - j) mod 3) 0), (Z.eqb_spec ((j - i) mod 3) 0);
    try reflexivity; exfalso; Z.div_mod_to_equations; lia.
Qed.

Lemma cell_value_zero (i j : Z) :
  ((i - j) mod 3 = 0)%Z -> cell_value i j = 0.
Proof.
  intros H. unfold cell_value. rewrite H. reflexivity.
Qed.

Lemma cell_value_pos (i j : Z) :
  ((i - j) mod 3 <> 0)%Z ->
  cell_value i j = 0.7 / (a / PI * sqrt (IZR (i ^ 2 + i * j + j ^ 2))) /\
  0 < cell_value i j <= 0.7 / (0.246 / PI).
Proof.
  intros H. unfold cell_value.
  destruct (Z.eqb_spec ((i - j) mod 3) 0) as [H0|_]; [contradiction |].
  split; [reflexivity |].
  assert (Hnz : (i <> 0 \/ j <> 0)%Z).
  { destruct (Z.eq_dec i 0) as [->|Hi]; [| left; exact Hi].
    right. intros ->. apply H. reflexivity. }
  pose proof (diameter_value_pos i j Hnz) as Hpos.
  pose proof (sqrt_form_ge_1 i j Hnz) as Hs.
  pose proof a_over_pi_pos as Hq. unfold a in Hq, Hpos |- *.
  split.
  - apply Rdiv_lt_0_compat; [lra | exact Hpos].
  - unfold Rdiv at 1 3. apply Rmult_le_compat_l; [lra |].
    apply Rinv_le_contravar; [exact Hq | nra].
Qed.

(** The cell (n, m) is the bandgap of the tube (n, m), the origin
    included. *)
Lemma cell_value_geometry (n m : Z) :
  exists t, geometry n m = Ok t /\ tube_bandgap t = cell_value n m.
Proof.
  destruct (metallic n m) eqn:Hmet.
  - eexists. split; [apply geometry_metallic; exact Hmet |].
    cbn [tube_bandgap]. symmetry. apply cell_value_zero.
    apply metallic_spec. exact Hmet.
  - apply metallic_false_spec in Hmet as Hmod.
    assert (Hnz : (n <> 0 \/ m <> 0)%Z).
    { destruct (Z.eq_dec n 0) as [->|Hn]; [| left; exact Hn].
      right. intros ->. apply Hmod. reflexivity. }
    eexists. split; [apply geometry_semiconducting; assumption |].
    cbn [tube_bandgap]. symmetry. apply cell_value_pos. exact Hmod.
Qed.

(** X7: the heat map is symmetric, grid[i, j] = grid[j, i]. *)
Theorem grid_symmetric (size : Z) :
  (10 <= size <= 40)%Z ->
  exists g, grid size = Ok g /\
            forall i j, (0 <= i < size)%Z -> (0 <= j < size)%Z ->
                        getitem2 g i j = getitem2 g j i.
Proof.
  intros _. destruct (grid_getitem size) as [g [Hg Hcells]].
  exists g. split; [exact Hg |].
  intros i j Hi Hj. rewrite !Hcells by assumption.
  rewrite cell_value_sym. reflexivity.
Qed.

Lemma grid_symmetric_witness :
  exists g, grid 20 = Ok g /\
            forall i j, (0 <= i < 20)%Z -> (0 <= j < 20)%Z ->
                        getitem2 g i j = getitem2 g j i.
Proof. apply (grid_symmetric 20). lia. Defined.

(** X8: the grid has size rows of size cells; every cell, the origin
    included, lies between 0 and 0.7 / (0.246 / pi), and it is 0 exactly
    when (i - j) mod 3 = 0. *)
Theorem grid_zero_on_metallic_lines_only (size : Z) :
  (10 <= size <= 40)%Z ->
  exists g,
    grid size = Ok g /\
    List.length g = Z.to_nat size /\
    (forall row, In row g -> List.length row = Z.to_nat size) /\
    forall i j, (0 <= i < size)%Z -> (0 <= j < size)%Z ->
      exists v, getitem2 g i j = Ok v /\
                0 <= v <= 0.7 / (0.246 / PI) /\
                (v = 0 <-> ((i - j) mod 3 = 0)%Z).
Proof.
  intros _. destruct (grid_filled size) as [g [Hg [Hshape Hcells]]].
  pose proof Hshape as [Hrows Hcols].
  exists g. split; [exact Hg |]. split; [exact Hrows |]. split.
  - intros row Hrow. apply (In_nth _ _ []) in Hrow.
    destruct Hrow as [i [Hi <-]]. apply Hcols. lia.
  - intros i j Hi Hj. exists (cell_value i j). split.
    + rewrite <- (Z2Nat.id i), <- (Z2Nat.id j) by lia.
      rewrite (getitem2_Ok (Z.to_nat size) (Z.to_nat size))
        by (assumption || lia).
      rewrite Hcells by lia. reflexivity.
    + destruct (Z.eq_dec ((i - j) mod 3) 0) as [H0|Hne].
      * rewrite (cell_value_zero i j H0). split.
        -- split; [lra |]. apply Rlt_le. apply Rdiv_lt_0_compat; [lra |].
           pose proof a_over_pi_pos as Hq. unfold a in Hq. exact Hq.
        -- split; intros _; [exact H0 | reflexivity].
      * destruct (cell_value_pos i j Hne) as [_ [Hpos Hle]]. split.
        -- split; [lra | exact Hle].
        -- split; [intros H; lra | intros H; contradiction].
Qed.

Lemma grid_zero_on_metallic_lines_only_witness :
  exists g,
    grid 10 = Ok g /\
    List.length g = Z.to_nat 10 /\
    (forall row, In row g -> List.length row = Z.to_nat 10) /\
    forall i j, (0 <= i < 10)%Z -> (0 <= j < 10)%Z ->
      exists v, getitem2 g i j = Ok v /\
                0 <= v <= 0.7 / (0.246 / PI) /\
                (v = 0 <-> ((i - j) mod 3 = 0)%Z).
Proof. apply (grid_zero_on_metallic_lines_only 10). lia. Defined.

(** X9: the cell (n, m) of the heat map is the bandgap the summary shows
    for the tube (n, m): the two copies of the formula agree on the whole
    grid, where the fallback diameter is never divided by. *)
Theorem grid_agrees_with_geometry (size n m : Z) :
  (10 <= size <= 40)%Z -> (0 <= n < size)%Z -> (0 <= m < size)%Z ->
  exists g t, grid size = Ok g /\ geometry n m = Ok t /\
              getitem2 g n m = Ok (tube_bandgap t).
Proof.
  intros _ Hn Hm.
  destruct (grid_getitem size) as [g [Hg Hcells]].
  destruct (cell_value_geometry n m) as [t [Ht Hbg]].
  exists g, t. split; [exact Hg |]. split; [exact Ht |].
  rewrite Hcells by assumption. rewrite Hbg. reflexivity.
Qed.

Lemma grid_agrees_with_geometry_witness :
  exists g t, grid 20 = Ok g /\ geometry 12 6 = Ok t /\
              getitem2 g 12 6 = Ok (tube_bandgap t).
Proof. apply (grid_agrees_with_geometry 20 12 6); lia. Defined.

(** ** The sampled band structure *)

Lemma nth_map_R (f : R -> R) (l : list R) (i : nat) :
  (i < List.length l)%nat -> nth i (map f l) 0 = f (nth i l 0).
Proof.
  intros Hi. rewrite (nth_indep _ 0 (f 0)) by (rewrite length_map; exact Hi).
  apply map_nth.
Qed.

Lemma length_k : List.length k = 400%nat.
Proof. apply length_linspace. Qed.

Lemma nth_k (i : nat) : (i < 400)%nat -> nth i k 0 = -3 + INR i * (6 / 399).
Proof.
  intros Hi. unfold k. rewrite nth_linspace by exact Hi.
  change (IZR (400 - 1)) with 399. lra.
Qed.

Lemma k_nonzero (x : R) : In x k -> x <> 0.
Proof.
  intros Hx H0. apply In_linspace in Hx. destruct Hx as [i [Hi Hx]].
  change (IZR (400 - 1)) with 399 in Hx.
  assert (H : IZR (2 * i) = IZR 399) by (rewrite mult_IZR; lra).
  apply eq_IZR in H. lia.
Qed.

Lemma INR_399 : INR 399 = 399.
Proof. rewrite INR_IZR_INZ. reflexivity. Qed.

Lemma INR_le_199 (i : nat) : (i <= 199)%nat -> INR i <= 199.
Proof.
  intros Hi. apply le_INR in Hi.
  replace (INR 199) with 199 in Hi by (rewrite INR_IZR_INZ; reflexivity).
  exact Hi.
Qed.

Lemma INR_ge_200 (i : nat) : (200 <= i)%nat -> 200 <= INR i.
Proof.
  intros Hi. apply le_INR in Hi.
  replace (INR 200) with 200 in Hi by (rewrite INR_IZR_INZ; reflexivity).
  exact Hi.
Qed.

Lemma k_negative_half (i : nat) : (i <= 199)%nat -> nth i k 0 < 0.
Proof.
  intros Hi. rewrite nth_k by lia. pose proof (INR_le_199 i Hi). lra.
Qed.

Lemma k_positive_half (i : nat) :
  (200 <= i < 400)%nat -> 0 < nth i k 0.
Proof.
  intros Hi. rewrite nth_k by lia.
  assert (H : 200 <= INR i) by (apply INR_ge_200; lia). lra.
Qed.

Lemma k_increasing (i : nat) :
  (i < 399)%nat -> nth i k 0 < nth (S i) k 0.
Proof. intros Hi. rewrite !nth_k by lia. rewrite S_INR. lra. Qed.

(** X10: the wavevector samples increase strictly, the first 200 are
    negative and the last 200 positive, and none of them is 0. *)
Theorem k_increasing_without_zero :
  (forall i, (i < 399)%nat -> nth i k 0 < nth (S i) k 0) /\
  (forall i, (i <= 199)%nat -> nth i k 0 < 0) /\
  (forall i, (200 <= i < 400)%nat -> 0 < nth i k 0) /\
  (forall x, In x k -> x <> 0).
Proof.
  split; [exact k_increasing |].
  split; [exact k_negative_half |].
  split; [exact k_positive_half | exact k_nonzero].
Qed.

Lemma k_increasing_without_zero_witness :
  nth 199 k 0 < nth 200 k 0 /\ nth 199 k 0 < 0 /\ 0 < nth 200 k 0.
Proof.
  destruct k_increasing_without_zero as [Hinc [Hneg [Hpos _]]].
  split; [apply Hinc; lia |]. split; [apply Hneg; lia | apply Hpos; lia].
Defined.

Lemma E_semiconducting_gt_half (half x : R) :
  x <> 0 -> half < E_semiconducting half x.
Proof.
  intros Hx. unfold E_semiconducting.
  assert (Hx2 : 0 < x ^ 2).
  { simpl. rewrite Rmult_1_r. apply Rsqr_pos_lt. exact Hx. }
  destruct (Rle_lt_dec 0 half) as [Hh|Hh].
  - rewrite <- (sqrt_pow2 half Hh) at 1.
    apply sqrt_lt_1_alt. nra.
  - apply Rlt_le_trans with 0; [exact Hh | apply sqrt_pos].
Qed.

Lemma E_semiconducting_at_end (half x : R) :
  x = -3 \/ x = 3 -> E_semiconducting half x = sqrt (half ^ 2 + 2.25).
Proof.
  intros Hx. unfold E_semiconducting.
  replace (0.25 * x ^ 2) with 2.25; [reflexivity |].
  destruct Hx as [-> | ->]; simpl; lra.
Qed.

(** X11: whatever the bandgap, the semiconducting curve has 400 samples,
    each strictly above bandgap/2 (the band edge at k = 0 is not sampled)
    and at most sqrt((bandgap/2)^2 + 2.25), the value of both end
    samples. *)
Theorem semiconducting_samples_above_half_gap (bandgap : R) :
  exists Es,
    E false bandgap = Ok Es /\
    List.length Es = 400%nat /\
    (forall e, In e Es ->
               bandgap / 2 < e <= sqrt ((bandgap / 2) ^ 2 + 2.25)) /\
    nth 0 Es 0 = sqrt ((bandgap / 2) ^ 2 + 2.25) /\
    nth 399 Es 0 = sqrt ((bandgap / 2) ^ 2 + 2.25).
Proof.
  eexists. split; [apply E_semiconducting_Ok |].
  split; [rewrite length_map; exact length_k |].
  split; [| split].
  - intros e He. apply in_map_iff in He. destruct He as [x [<- Hx]].
    split; [apply E_semiconducting_gt_half; apply k_nonzero; exact Hx |].
    apply k_bounds in Hx. unfold E_semiconducting.
    apply sqrt_le_1_alt. nra.
  - rewrite nth_map_R by (rewrite length_k; lia).
    rewrite nth_k by lia. apply E_semiconducting_at_end. simpl. lra.
  - rewrite nth_map_R by (rewrite length_k; lia).
    rewrite nth_k by lia. apply E_semiconducting_at_end.
    rewrite INR_399. lra.
Qed.

Lemma E_semiconducting_monotone (half x y : R) :
  x ^ 2 <= y ^ 2 -> E_semiconducting half x <= E_semiconducting half y.
Proof.
  intros Hxy. unfold E_semiconducting. apply sqrt_le_1_alt. lra.
Qed.

(** X12: both curves have one energy per wavevector.  The metallic one
    increases strictly from 0.2 * -3 to 0.2 * 3, negative on the first
    200 samples and positive on the last 200; the semiconducting one
    does not increase over the first 200 samples and does not decrease
    over the last 200. *)
Theorem band_curves_shape (bandgap : R) :
  (exists Es,
      E true bandgap = Ok Es /\
      List.length Es = List.length k /\
      nth 0 Es 0 = 0.2 * -3 /\
      nth 399 Es 0 = 0.2 * 3 /\
      (forall i, (i < 399)%nat -> nth i Es 0 < nth (S i) Es 0) /\
      (forall i, (i <= 199)%nat -> nth i Es 0 < 0) /\
      (forall i, (200 <= i < 400)%nat -> 0 < nth i Es 0)) /\
  (exists Es,
      E false bandgap = Ok Es /\
      List.length Es = List.length k /\
      (forall i, (i < 199)%nat -> nth (S i) Es 0 <= nth i Es 0) /\
      (forall i, (200 <= i < 399)%nat -> nth i Es 0 <= nth (S i) Es 0)).
Proof.
  split.
  - eexists. split; [reflexivity |].
    split; [apply length_map |].
    split; [rewrite nth_map_R by (rewrite length_k; lia);
            rewrite nth_k by lia; unfold E_metallic; simpl; lra |].
    split; [rewrite nth_map_R by (rewrite length_k; lia);
            rewrite nth_k by lia; unfold E_metallic; rewrite INR_399; lra |].
    split; [| split].
    + intros i Hi. rewrite !nth_map_R by (rewrite length_k; lia).
      pose proof (k_increasing i Hi). unfold E_metallic. lra.
    + intros i Hi. rewrite nth_map_R by (rewrite length_k; lia).
      pose proof (k_negative_half i Hi). unfold E_metallic. lra.
    + intros i Hi. rewrite nth_map_R by (rewrite length_k; lia).
      pose proof (k_positive_half i Hi). unfold E_metallic. lra.
  - eexists. split; [apply E_semiconducting_Ok |].
    split; [apply length_map |]. split.
    + intros i Hi. rewrite !nth_map_R by (rewrite length_k; lia).
      apply E_semiconducting_monotone.
      assert (H1 : nth i k 0 < nth (S i) k 0) by (apply k_increasing; lia).
      assert (H2 : nth (S i) k 0 < 0) by (apply k_negative_half; lia).
      nra.
    + intros i Hi. rewrite !nth_map_R by (rewrite length_k; lia).
      apply E_semiconducting_monotone.
      assert (H1 : nth i k 0 < nth (S i) k 0) by (apply k_increasing; lia).
      assert (H2 : 0 < nth i k 0) by (apply k_positive_half; lia).
      nra.
Qed.

(** ** The current estimate beyond the clamp *)

Lemma product_pos_inv (Vg Vd vt : R) :
  0 <= Vd -> 0 < 10e-6 * (Vg - vt) * Vd -> vt < Vg /\ 0 < Vd.
Proof.
  intros HVd Hpos.
  assert (HVd' : 0 < Vd).
  { destruct (Req_dec Vd 0) as [H0|H0]; [| lra].
    rewrite H0 in Hpos. lra. }
  split; [| exact HVd'].
  destruct (Rlt_dec vt Vg) as [Hlt|Hge]; [exact Hlt |].
  exfalso. assert (0 <= (vt - Vg) * Vd) by (apply Rmult_le_pos; lra). lra.
Qed.

(** X13: with a drain voltage that is not negative, the current is
    positive exactly when the gate is above the threshold and the drain
    voltage is positive, and from the threshold on it is the unclamped
    product beta * (Vg - Vt) * Vd. *)
Theorem Id_on_above_threshold (Vg Vd vt : R) :
  0 <= Vd ->
  (0 < Id Vg Vd vt <-> vt < Vg /\ 0 < Vd) /\
  (vt <= Vg -> Id Vg Vd vt = 10e-6 * (Vg - vt) * Vd).
Proof.
  intros HVd. unfold Id, max, beta.
  destruct (Rlt_dec 0 (10e-6 * (Vg - vt) * Vd)) as [Hpos|Hnpos].
  - split; [| reflexivity].
    split; [intros _ | intros _; exact Hpos].
    apply product_pos_inv; assumption.
  - split.
    + split; [intros H; lra | intros [H1 H2]; exfalso; apply Hnpos; nra].
    + intros Hge. nra.
Qed.

Lemma Id_on_above_threshold_witness :
  (0 < Id 1 1 0 <-> 0 < 1 /\ 0 < 1) /\
  (0 <= 1 -> Id 1 1 0 = 10e-6 * (1 - 0) * 1).
Proof. apply (Id_on_above_threshold 1 1 0). lra. Defined.

(** X14: for a threshold that is not negative and voltages within the
    sliders, the current does not decrease when either voltage grows, and
    it never exceeds 0.00004. *)
Theorem Id_monotone_and_bounded (Vg Vg' Vd Vd' vt : R) :
  0 <= vt -> 0 <= Vg <= Vg' -> Vg' <= 2 -> 0 <= Vd <= Vd' -> Vd' <= 2 ->
  Id Vg Vd vt <= Id Vg' Vd' vt /\ Id Vg' Vd' vt <= 0.00004.
Proof.
  intros Hvt HVg HVg' HVd HVd'. unfold Id, max, beta.
  assert (Hbound : 0 < 10e-6 * (Vg' - vt) * Vd' ->
                   10e-6 * (Vg' - vt) * Vd' <= 0.00004).
  { intros H2. apply product_pos_inv in H2; [| lra].
    assert ((Vg' - vt) * Vd' <= 2 * 2) by (apply Rmult_le_compat; lra).
    lra. }
  assert (Hmono : 0 < 10e-6 * (Vg - vt) * Vd ->
                  10e-6 * (Vg - vt) * Vd <= 10e-6 * (Vg' - vt) * Vd').
  { intros H1. apply product_pos_inv in H1; [| lra].
    assert ((Vg - vt) * Vd <= (Vg' - vt) * Vd')
      by (apply Rmult_le_compat; lra).
    lra. }
  destruct (Rlt_dec 0 (10e-6 * (Vg - vt) * Vd)) as [H1|H1],
           (Rlt_dec 0 (10e-6 * (Vg' - vt) * Vd')) as [H2|H2].
  - split; [apply Hmono; exact H1 | apply Hbound; exact H2].
  - exfalso. apply H2. apply Rlt_le_trans with (1 := H1). apply Hmono. exact H1.
  - split; [lra | apply Hbound; exact H2].
  - split; lra.
Qed.

Lemma Id_monotone_and_bounded_witness :
  Id 1 1 0.5 <= Id 2 2 0.5 /\ Id 2 2 0.5 <= 0.00004.
Proof. apply (Id_monotone_and_bounded 1 2 1 2 0.5); lra. Defined.

(** ** The comparison sweep *)

Lemma length_V : List.length V = 50%nat.
Proof. apply length_linspace. Qed.

Lemma nth_V (i : nat) : (i < 50)%nat -> nth i V 0 = INR i * (2 / 49).
Proof.
  intros Hi. unfold V. rewrite nth_linspace by exact Hi.
  change (IZR (50 - 1)) with 49. lra.
Qed.

Lemma clamp_is_max (x : R) : (if Rlt_dec x 0 then 0 else x) = max 0 x.
Proof.
  unfold max. destruct (Rlt_dec x 0), (Rlt_dec 0 x); lra.
Qed.

(** X15: the masked assignment of the sweep is the clamp of the
    estimator: the CNT curve is the current estimate at a drain voltage
    of 1 for each of the 50 gate voltages, hence never negative. *)
Theorem Id_cnt_is_Id_at_unit_drain (vt : R) :
  Id_cnt vt = map (fun v => Id v 1 vt) V /\
  List.length (Id_cnt vt) = List.length V /\
  List.length Id_si = List.length V /\
  forall x, In x (Id_cnt vt) -> 0 <= x.
Proof.
  assert (Heq : Id_cnt vt = map (fun v => Id v 1 vt) V).
  { unfold Id_cnt. rewrite map_map. apply map_ext. intros v.
    rewrite clamp_is_max. unfold Id. f_equal. ring. }
  split; [exact Heq |].
  split; [rewrite Heq; apply length_map |].
  split; [apply length_map |].
  intros x Hx. rewrite Heq in Hx. apply in_map_iff in Hx.
  destruct Hx as [v [<- _]]. apply max_0_nonneg.
Qed.

Lemma nth_Id_cnt (vt : R) (i : nat) :
  (i < 50)%nat ->
  nth i (Id_cnt vt) 0 = max 0 (beta * (INR i * (2 / 49) - vt)).
Proof.
  intros Hi. unfold Id_cnt. rewrite map_map.
  rewrite (nth_map_R _ V) by (rewrite length_V; exact Hi).
  rewrite nth_V by exact Hi. apply clamp_is_max.
Qed.

Lemma nth_Id_si (i : nat) :
  (i < 50)%nat -> nth i Id_si 0 = 0.0002 * (INR i * (2 / 49)) ^ 2.
Proof.
  intros Hi. unfold Id_si.
  rewrite (nth_map_R _ V) by (rewrite length_V; exact Hi).
  rewrite nth_V by exact Hi. unfold mu, Cox, WoverL. lra.
Qed.

(** X16: the silicon curve starts at 0, does not decrease, and ends at
    0.0008. *)
Theorem Id_si_increasing :
  nth 0 Id_si 0 = 0 /\
  nth 49 Id_si 0 = 0.0008 /\
  forall i, (i < 49)%nat -> nth i Id_si 0 <= nth (S i) Id_si 0.
Proof.
  split; [rewrite nth_Id_si by lia; simpl; lra |].
  split.
  - rewrite nth_Id_si by lia.
    replace (INR 49) with 49 by (rewrite INR_IZR_INZ; reflexivity).
    replace (49 * (2 / 49)) with 2 by lra. simpl. lra.
  - intros i Hi. rewrite !nth_Id_si by lia. rewrite S_INR.
    pose proof (pos_INR i). nra.
Qed.

(** X17: for a threshold that is not negative the silicon curve is at or
    above the CNT curve at every sample but the second one, and for a
    metallic tube (threshold 0) the CNT curve is above it there. *)
Theorem silicon_above_cnt_but_at_second_sample (vt : R) :
  0 <= vt ->
  (forall i, (i < 50)%nat -> i <> 1%nat ->
             nth i (Id_cnt vt) 0 <= nth i Id_si 0) /\
  nth 1 Id_si 0 < nth 1 (Id_cnt 0) 0.
Proof.
  intros Hvt. split.
  - intros i Hi Hne. rewrite nth_Id_cnt, nth_Id_si by exact Hi.
    unfold max, beta.
    assert (Hcase : INR i = 0 \/ 2 <= INR i).
    { destruct i as [|[|i]]; [left; reflexivity | congruence |].
      right. rewrite !S_INR. pose proof (pos_INR i). lra. }
    destruct (Rlt_dec 0 (10e-6 * (INR i * (2 / 49) - vt))) as [Hpos|_].
    + destruct Hcase as [H0|H2]; [rewrite H0 in Hpos; lra | nra].
    + nra.
  - rewrite nth_Id_cnt, nth_Id_si by lia. unfold max, beta. simpl INR.
    destruct (Rlt_dec 0 (10e-6 * (1 * (2 / 49) - 0))) as [_|H]; lra.
Qed.

Lemma silicon_above_cnt_but_at_second_sample_witness :
  (forall i, (i < 50)%nat -> i <> 1%nat ->
             nth i (Id_cnt 0.5) 0 <= nth i Id_si 0) /\
  nth 1 Id_si 0 < nth 1 (Id_cnt 0) 0.
Proof. apply (silicon_above_cnt_but_at_second_sample 0.5). lra. Defined.

(** ** Resistance against the diameter *)

(** X18: for a fixed length that is not negative the resistance does not
    grow with the diameter. *)
Theorem resistance_inverse_in_diameter (L d1 d2 : R) :
  0 <= L -> 0 < d1 <= d2 ->
  exists r1 r2,
    resistance L d1 = Ok r1 /\ resistance L d2 = Ok r2 /\
    0 <= r2 <= r1.
Proof.
  intros HL [Hd1 Hd12].
  assert (Hd2 : 0 < d2) by lra.
  do 2 eexists.
  split; [apply resistance_Ok; exact Hd1 |].
  split; [apply resistance_Ok; exact Hd2 |].
  assert (Hinv1 : 0 < / (d1 * 1e-7)) by (apply Rinv_0_lt_compat; lra).
  assert (Hinv2 : 0 < / (d2 * 1e-7)) by (apply Rinv_0_lt_compat; lra).
  assert (Hle : / (d2 * 1e-7) <= / (d1 * 1e-7))
    by (apply Rinv_le_contravar; lra).
  unfold rho, length_cm, Rdiv. split.
  - apply Rmult_le_pos; [lra |]. apply Rmult_le_pos; lra.
  - apply Rmult_le_compat_l; [lra |].
    apply Rmult_le_compat_l; lra.
Qed.

Lemma resistance_inverse_in_diameter_witness :
  exists r1 r2,
    resistance 5 1 = Ok r1 /\ resistance 5 2 = Ok r2 /\
    0 <= r2 <= r1.
Proof. apply (resistance_inverse_in_diameter 5 1 2); lra. Defined.

(** ** Whole runs *)

Lemma E_total (metallic_ : bool) (bandgap_ : R) :
  exists Es, E metallic_ bandgap_ = Ok Es.
Proof.
  destruct metallic_.
  - eexists. reflexivity.
  - eexists. apply E_semiconducting_Ok.
Qed.

(** A run up to the resistance estimator, which decides how it ends. *)
Lemma run_value (x : inputs) (t : tube_geometry) :
  geometry (in_n x) (in_m x) = Ok t ->
  exists Es g,
    E (tube_metallic t) (tube_bandgap t) = Ok Es /\
    grid (in_size x) = Ok g /\
    run x =
    (R_ <- resistance (in_length_um x) (tube_diameter t) ;;
     Ok {| out_diameter := tube_diameter t;
           out_metallic := tube_metallic t;
           out_bandgap := tube_bandgap t;
           out_band_plot := band_plot Es;
           out_Id := Id (in_Vg x) (in_Vd x) (tube_bandgap t / 2);
           out_grid := g;
           out_R := R_;
           out_Id_cnt := Id_cnt (tube_bandgap t / 2);
           out_Id_si := Id_si;
           out_synthesis := synthesis (tube_diameter t) |}).
Proof.
  intros Ht.
  destruct (E_total (tube_metallic t) (tube_bandgap t)) as [Es HE].
  destruct (grid_filled (in_size x)) as [g [Hg _]].
  exists Es, g. split; [exact HE |]. split; [exact Hg |].
  unfold run. rewrite Ht. simpl. rewrite HE. simpl.
  rewrite Vt_Ok. simpl. rewrite Hg. reflexivity.
Qed.

(** X19: with every widget in its range the script runs to its end
    without an exception; the diameter and the resistance it shows are
    positive, the current is not negative, and the bandgap is 0 for a
    metallic tube and positive otherwise. *)
Theorem run_completes (x : inputs) :
  in_range x ->
  exists o,
    run x = Ok o /\
    0 < out_diameter o /\
    0 < out_R o /\
    0 <= out_Id o /\
    out_metallic o = metallic (in_n x) (in_m x) /\
    (out_metallic o = true -> out_bandgap o = 0) /\
    (out_metallic o = false -> 0 < out_bandgap o).
Proof.
  intros Hx. pose proof Hx as [Hn [Hm [_ [_ [_ HL]]]]].
  unfold accepts in Hn, Hm. simpl in Hn, Hm.
  apply andb_prop in Hn. destruct Hn as [Hn _]. apply Z.leb_le in Hn.
  apply andb_prop in Hm. destruct Hm as [Hm _]. apply Z.leb_le in Hm.
  assert (Hnz : (in_n x <> 0 \/ in_m x <> 0)%Z) by lia.
  pose proof (diameter_value_pos _ _ Hnz) as Hpos.
  assert (HR : forall d0, 0 < d0 ->
                 0 < rho * (length_cm (in_length_um x) / (d0 * 1e-7))).
  { intros d0 Hd0. unfold rho, length_cm.
    apply Rmult_lt_0_compat; [lra |]. apply Rdiv_lt_0_compat; lra. }
  destruct (metallic (in_n x) (in_m x)) eqn:Hmet.
  - pose proof (geometry_metallic _ _ Hmet) as Ht.
    destruct (run_value x _ Ht) as [Es [g [_ [_ Hrun]]]].
    cbn [tube_diameter tube_metallic tube_bandgap] in Hrun.
    rewrite resistance_Ok in Hrun by exact Hpos. simpl in Hrun.
    eexists. split; [exact Hrun |].
    cbn [out_diameter out_R out_Id out_metallic out_bandgap].
    split; [exact Hpos |]. split; [apply HR; exact Hpos |].
    split; [apply max_0_nonneg |]. split; [reflexivity |].
    split; [reflexivity | discriminate].
  - pose proof (geometry_semiconducting _ _ Hmet Hnz) as Ht.
    destruct (run_value x _ Ht) as [Es [g [_ [_ Hrun]]]].
    cbn [tube_diameter tube_metallic tube_bandgap] in Hrun.
    rewrite resistance_Ok in Hrun by exact Hpos. simpl in Hrun.
    eexists. split; [exact Hrun |].
    cbn [out_diameter out_R out_Id out_metallic out_bandgap].
    split; [exact Hpos |]. split; [apply HR; exact Hpos |].
    split; [apply max_0_nonneg |]. split; [reflexivity |].
    split; [discriminate |].
    intros _. apply Rdiv_lt_0_compat; [lra | exact Hpos].
Qed.

(** X20: the pair (0, 0), which the widget of n keeps out, would pass
    the geometry, the band structure, the current and the heat map, and
    stop the script with ZeroDivisionError at the resistance estimator. *)
Theorem run_degenerate_pair_raises (x : inputs) :
  in_n x = 0%Z -> in_m x = 0%Z -> (10 <= in_size x <= 40)%Z ->
  (exists t Es g,
      geometry (in_n x) (in_m x) = Ok t /\
      E (tube_metallic t) (tube_bandgap t) = Ok Es /\
      grid (in_size x) = Ok g) /\
  resistance (in_length_um x) 0 = Raise ZeroDivisionError /\
  run x = Raise ZeroDivisionError.
Proof.
  intros Hn Hm _.
  assert (Ht : geometry (in_n x) (in_m x) =
               Ok {| tube_diameter := 0; tube_metallic := true;
                     tube_bandgap := 0 |})
    by (rewrite Hn, Hm; exact geometry_0_0).
  assert (HR : resistance (in_length_um x) 0 = Raise ZeroDivisionError).
  { unfold resistance. rewrite Rmult_0_l, div_zero. reflexivity. }
  destruct (run_value x _ Ht) as [Es [g [HE [Hg Hrun]]]].
  split.
  { eexists. exists Es, g. split; [exact Ht |]. split; [exact HE | exact Hg]. }
  split; [exact HR |].
  rewrite Hrun. cbn [tube_diameter]. rewrite HR. reflexivity.
Qed.

Lemma run_completes_witness :
  exists o,
    run {| in_n := 12; in_m := 6; in_Vg := 1; in_Vd := 1;
           in_size := 20; in_length_um := 5 |} = Ok o /\
    0 < out_diameter o /\ 0 < out_R o /\ 0 <= out_Id o.
Proof.
  destruct (run_completes
              {| in_n := 12; in_m := 6; in_Vg := 1; in_Vd := 1;
                 in_size := 20; in_length_um := 5 |})
    as [o [Ho [Hd [HR [HId _]]]]].
  - unfold in_range. simpl.
    repeat split; try reflexivity; try lra; lia.
  - exists o. repeat split; assumption.
Defined.

Lemma run_degenerate_pair_raises_witness :
  run {| in_n := 0; in_m := 0; in_Vg := 1; in_Vd := 1;
         in_size := 20; in_length_um := 5 |} = Raise ZeroDivisionError.
Proof.
  apply (run_degenerate_pair_raises
           {| in_n := 0; in_m := 0; in_Vg := 1; in_Vd := 1;
              in_size := 20; in_length_um := 5 |});
    simpl; (reflexivity || lia).
Defined.

(** ** From the tube to the current *)

(** The smallest tubes that are not metallic. *)
Lemma semiconducting_form_ge_7 (n m : Z) :
  (1 <= n)%Z -> (0 <= m)%Z -> metallic n m = false ->
  ~ ((n = 1 \/ n = 2) /\ m = 0)%Z ->
  (7 <= n ^ 2 + n * m + m ^ 2)%Z.
Proof.
  intros Hn Hm Hsemi Hne.
  destruct (Z_le_gt_dec 3 n) as [H3|H3]; [nia |].
  destruct (Z_le_gt_dec 2 m) as [H2|H2]; [nia |].
  assert (Hcases : ((n = 1 \/ n = 2) /\ (m = 0 \/ m = 1))%Z) by lia.
  destruct Hcases as [[-> | ->] [-> | ->]];
    try discriminate Hsemi; try (exfalso; apply Hne; lia).
  cbn. lia.
Qed.

(** X21: for a tube within the widgets the estimator can show a positive
    current for some position of the two voltage sliders, unless the tube
    is (1, 0) or (2, 0), whose threshold bandgap/2 lies above the gate
    range. *)
Theorem current_can_flow_unless_tube_too_narrow (n m : Z) :
  (1 <= n)%Z -> (0 <= m)%Z ->
  exists t vt,
    geometry n m = Ok t /\ Vt (tube_bandgap t) = Ok vt /\
    ((exists Vg Vd, 0 <= Vg <= 2 /\ 0 <= Vd <= 2 /\ 0 < Id Vg Vd vt) <->
     ~ ((n = 1 \/ n = 2) /\ m = 0)%Z).
Proof.
  intros Hn Hm.
  assert (Hnz : (n <> 0 \/ m <> 0)%Z) by lia.
  pose proof PI_4_decimals as HPI.
  assert (Hon : forall vt, vt < 2 -> 0 < Id 2 2 vt).
  { intros vt Hvt. unfold Id, max, beta.
    destruct (Rlt_dec 0 (10e-6 * (2 - vt) * 2)); lra. }
  assert (Hoff : forall vt Vg Vd, 2 <= vt -> 0 <= Vg <= 2 -> 0 <= Vd <= 2 ->
                                  ~ 0 < Id Vg Vd vt).
  { intros vt Vg Vd Hvt HVg HVd Hpos.
    unfold Id, max, beta in Hpos.
    destruct (Rlt_dec 0 (10e-6 * (Vg - vt) * Vd)) as [H|H]; [| lra].
    apply product_pos_inv in H; lra. }
  destruct (metallic n m) eqn:Hmet.
  - exists {| tube_diameter := a / PI * sqrt (IZR (n ^ 2 + n * m + m ^ 2));
              tube_metallic := true; tube_bandgap := 0 |}, (0 / 2).
    split; [apply geometry_metallic; exact Hmet |].
    split; [apply Vt_Ok |]. split.
    + intros _ [[-> | ->] ->]; discriminate Hmet.
    + intros _. exists 2, 2. split; [lra |]. split; [lra |].
      apply Hon. lra.
  - set (s := sqrt (IZR (n ^ 2 + n * m + m ^ 2))).
    exists {| tube_diameter := a / PI * s; tube_metallic := false;
              tube_bandgap := 0.7 / (a / PI * s) |},
           (0.7 / (a / PI * s) / 2).
    split; [apply geometry_semiconducting; assumption |].
    split; [apply Vt_Ok |].
    assert (Hs0 : 0 < s).
    { apply sqrt_lt_R0. apply IZR_lt. apply form_pos. exact Hnz. }
    assert (Hgap : 0.7 / (a / PI * s) = 0.7 * PI / (0.246 * s)).
    { unfold a. set (c := 0.246). field.
      repeat split; (apply PI_neq0 || (unfold c; lra)). }
    split.
    + intros [Vg [Vd [HVg [HVd Hpos]]]] [Hn12 ->].
      apply (Hoff _ Vg Vd) in Hpos; [exact Hpos | | exact HVg | exact HVd].
      assert (Hs2 : s <= 2).
      { unfold s. rewrite <- (sqrt_square 2) by lra.
        apply sqrt_le_1_alt. destruct Hn12 as [-> | ->]; simpl; lra. }
      rewrite Hgap.
      assert (Hq : 4 * (0.246 * s) <= 0.7 * PI) by lra.
      assert (Hge : 4 <= 0.7 * PI / (0.246 * s)).
      { apply Rmult_le_reg_r with (0.246 * s); [lra |].
        replace (0.7 * PI / (0.246 * s) * (0.246 * s)) with (0.7 * PI);
          [exact Hq |].
        set (c := 0.246) in *. field.
        repeat split; (apply PI_neq0 || (unfold c; lra)). }
      lra.
    + intros Hne. exists 2, 2. split; [lra |]. split; [lra |].
      apply Hon.
      pose proof (semiconducting_form_ge_7 n m Hn Hm Hmet Hne) as H7.
      assert (Hs7 : 2.645 < s).
      { unfold s. rewrite <- (sqrt_square 2.645) by lra.
        apply sqrt_lt_1_alt. split; [lra |].
        apply Rlt_le_trans with 7; [lra | apply IZR_le; exact H7]. }
      rewrite Hgap.
      assert (Hlt : 0.7 * PI / (0.246 * s) < 4).
      { apply Rmult_lt_reg_r with (0.246 * s); [lra |].
        replace (0.7 * PI / (0.246 * s) * (0.246 * s)) with (0.7 * PI);
          [lra |].
        set (c := 0.246) in *. field.
        repeat split; (apply PI_neq0 || (unfold c; lra)). }
      lra.
Qed.

Lemma current_can_flow_unless_tube_too_narrow_witness :
  exists t vt,
    geometry 10 0 = Ok t /\ Vt (tube_bandgap t) = Ok vt /\
    ((exists Vg Vd, 0 <= Vg <= 2 /\ 0 <= Vd <= 2 /\ 0 < Id Vg Vd vt) <->
     ~ ((10 = 1 \/ 10 = 2) /\ 0 = 0)%Z).
Proof.
  apply (current_can_flow_unless_tube_too_narrow 10 0); lia.
Defined.

(** ** The band edge and the samples *)

(** C10, as stated, fails: no wavevector sample is 0, and for the tube
    (10, 0) no computed energy is bandgap/2, nor is the distance between
    the two plotted lines the bandgap at any sample. *)
Lemma band_edge_is_not_sampled :
  ~ In 0 k /\
  exists t Es,
    geometry 10 0 = Ok t /\
    E (tube_metallic t) (tube_bandgap t) = Ok Es /\
    List.length Es = 400%nat /\
    forall e, In e Es -> e <> tube_bandgap t / 2 /\ e - - e <> tube_bandgap t.
Proof.
  split; [intros H0; exact (k_nonzero 0 H0 eq_refl) |].
  eexists. eexists.
  split; [apply geometry_semiconducting; [reflexivity | lia] |].
  cbn [tube_metallic tube_bandgap].
  split; [apply E_semiconducting_Ok |].
  split; [rewrite length_map; exact length_k |].
  intros e He. apply in_map_iff in He. destruct He as [x [<- Hx]].
  pose proof (E_semiconducting_gt_half
                (0.7 / (a / PI * sqrt (IZR (10 ^ 2 + 10 * 0 + 0 ^ 2))) / 2)
                x (k_nonzero x Hx)) as Hgt.
  split; intros Heq; lra.
Qed.

(** C10, amended: for a semiconducting tube each of the 400 computed
    energies is strictly above bandgap/2; the wavevector 0 is not among
    the samples, so bandgap/2 is a bound the computed curve does not
    reach, and the two plotted lines E and -E are more than the bandgap
    apart at every sample. *)
Theorem semiconducting_samples_above_band_edge (n m : Z) :
  (1 <= n)%Z -> (0 <= m)%Z -> ((n - m) mod 3 <> 0)%Z ->
  exists t Es,
    geometry n m = Ok t /\
    tube_metallic t = false /\
    0 < tube_bandgap t /\
    E (tube_metallic t) (tube_bandgap t) = Ok Es /\
    List.length Es = 400%nat /\
    (forall i, (i < 400)%nat ->
       nth i Es 0 = sqrt ((tube_bandgap t / 2) ^ 2 + 0.25 * (nth i k 0) ^ 2)) /\
    ~ In 0 k /\
    (forall e, In e Es ->
               tube_bandgap t / 2 < e /\ tube_bandgap t < e - - e).
Proof.
  intros Hn Hm Hmod.
  apply metallic_false_spec in Hmod as Hsemi.
  assert (Hnz : (n <> 0 \/ m <> 0)%Z) by lia.
  pose proof (diameter_value_pos n m Hnz) as Hpos.
  eexists. eexists.
  split; [apply geometry_semiconducting; assumption |].
  cbn [tube_metallic tube_bandgap].
  split; [reflexivity |].
  split; [apply Rdiv_lt_0_compat; [lra | exact Hpos] |].
  split; [apply E_semiconducting_Ok |].
  split; [rewrite length_map; exact length_k |].
  split; [intros i Hi; rewrite nth_map_R by (rewrite length_k; exact Hi);
          reflexivity |].
  split; [intros H0; exact (k_nonzero 0 H0 eq_refl) |].
  intros e He. apply in_map_iff in He. destruct He as [x [<- Hx]].
  pose proof (E_semiconducting_gt_half
                (0.7 / (a / PI * sqrt (IZR (n ^ 2 + n * m + m ^ 2))) / 2)
                x (k_nonzero x Hx)) as Hgt.
  split; lra.
Qed.

Lemma semiconducting_samples_above_band_edge_witness :
  exists t Es,
    geometry 10 0 = Ok t /\
    tube_metallic t = false /\
    0 < tube_bandgap t /\
    E (tube_metallic t) (tube_bandgap t) = Ok Es /\
    List.length Es = 400%nat /\
    (forall i, (i < 400)%nat ->
       nth i Es 0 = sqrt ((tube_bandgap t / 2) ^ 2 + 0.25 * (nth i k 0) ^ 2)) /\
    ~ In 0 k /\
    (forall e, In e Es ->
               tube_bandgap t / 2 < e /\ tube_bandgap t < e - - e).
Proof.
  apply (semiconducting_samples_above_band_edge 10 0); [lia | lia |].
  discriminate.
Defined.

(** ** The degenerate pair (0, 0) and the whole script *)

(** C3, as stated, fails: handed the pair (0, 0), lines 21 to 23 reject
    nothing and return the bandgap 0, and the only exception of the run
    is the ZeroDivisionError of the resistance estimator. *)
Lemma degenerate_pair_meets_no_degenerate_error :
  geometry 0 0 =
  Ok {| tube_diameter := 0; tube_metallic := true; tube_bandgap := 0 |} /\
  ~ raises (geometry 0 0) /\
  run {| in_n := 0; in_m := 0; in_Vg := 1; in_Vd := 1;
         in_size := 20; in_length_um := 5 |} = Raise ZeroDivisionError.
Proof.
  split; [exact geometry_0_0 |].
  split; [rewrite geometry_0_0; apply Ok_not_raises |].
  destruct (run_value {| in_n := 0; in_m := 0; in_Vg := 1; in_Vd := 1;
                         in_size := 20; in_length_um := 5 |} _ geometry_0_0)
    as [Es [g [_ [_ Hrun]]]].
  rewrite Hrun. cbn [tube_diameter in_length_um].
  unfold resistance. rewrite Rmult_0_l, div_zero. reflexivity.
Qed.

(** C3, amended: the pair (0, 0) is kept out by the widget of n: every
    run the widgets allow has n >= 1, a positive diameter and a bandgap
    that is not negative, and ends without an exception.  No degenerate
    input error exists: handed (0, 0), lines 21 to 23 would return
    diameter 0, metallic, bandgap 0, the division by the diameter being
    skipped for a metallic tube, and the script would stop at the
    resistance estimator with ZeroDivisionError. *)
Theorem degenerate_pair_kept_out_by_the_widget :
  (forall x, in_range x ->
     (1 <= in_n x)%Z /\
     exists o, run x = Ok o /\ 0 < out_diameter o /\ 0 <= out_bandgap o) /\
  (forall x, in_n x = 0%Z -> in_m x = 0%Z -> (10 <= in_size x <= 40)%Z ->
     geometry (in_n x) (in_m x) =
     Ok {| tube_diameter := 0; tube_metallic := true; tube_bandgap := 0 |} /\
     bandgap true 0 = Ok 0 /\
     run x = Raise ZeroDivisionError).
Proof.
  split.
  - intros x Hx. pose proof Hx as [Hn [Hm _]].
    unfold accepts in Hn, Hm. simpl in Hn, Hm.
    apply andb_prop in Hn. destruct Hn as [Hn _]. apply Z.leb_le in Hn.
    apply andb_prop in Hm. destruct Hm as [Hm _]. apply Z.leb_le in Hm.
    split; [exact Hn |].
    destruct (run_Ok x Hx) as [t [g [o [Ht [_ [Ho [Hd [_ [Hbg _]]]]]]]]].
    destruct (geometry_in_range _ _ Hn Hm) as [t' [Ht' Hpos]].
    rewrite Ht in Ht'. injection Ht' as <-.
    exists o. split; [exact Ho |]. rewrite Hd, Hbg. split; [exact Hpos |].
    destruct (metallic (in_n x) (in_m x)) eqn:Hmet.
    + rewrite (geometry_metallic _ _ Hmet) in Ht. injection Ht as <-.
      cbn [tube_bandgap]. lra.
    + rewrite (geometry_semiconducting _ _ Hmet) in Ht by lia.
      injection Ht as <-. cbn [tube_bandgap].
      apply Rlt_le. apply Rdiv_lt_0_compat; [lra |].
      apply diameter_value_pos. lia.
  - intros x Hn Hm _.
    assert (Ht : geometry (in_n x) (in_m x) =
                 Ok {| tube_diameter := 0; tube_metallic := true;
                       tube_bandgap := 0 |})
      by (rewrite Hn, Hm; exact geometry_0_0).
    split; [exact Ht |]. split; [reflexivity |].
    destruct (run_value x _ Ht) as [Es [g [_ [_ Hrun]]]].
    rewrite Hrun. cbn [tube_diameter].
    unfold resistance. rewrite Rmult_0_l, div_zero. reflexivity.
Qed.

Lemma degenerate_pair_kept_out_by_the_widget_witness :
  (1 <= 12)%Z /\
  exists o,
    run {| in_n := 12; in_m := 6; in_Vg := 1; in_Vd := 1;
           in_size := 20; in_length_um := 5 |} = Ok o /\
    0 < out_diameter o /\ 0 <= out_bandgap o.
Proof.
  destruct degenerate_pair_kept_out_by_the_widget as [Hin _].
  apply (Hin {| in_n := 12; in_m := 6; in_Vg := 1; in_Vd := 1;
                in_size := 20; in_length_um := 5 |}).
  unfold in_range. simpl.
  repeat split; try reflexivity; try lra; lia.
Defined.
